(** * Deployment backup / rollback manager (deploy.js)

    A shallow embedding of the deployment script: the script's functions
    become computations of a small monad over an explicit world (the
    machines reached through child processes, the history of spawned
    commands with their exit statuses, the console, the lines waiting on
    standard input, the persisted configuration file, the clock).

    Child processes are the script's only way to act on the remote host, so
    the transport that answers a spawned command is a parameter of the
    development; a concrete remote host is given further down for the
    retention properties. *)

From Stdlib Require Import String Ascii List ZArith Lia Bool.
From Stdlib Require Import DecimalString.
Import ListNotations.

Open Scope list_scope.
Open Scope string_scope.

(** ** JavaScript strings

    Strings are byte strings holding UTF-8.  Case mapping is that of the
    ASCII range; white space is that of [String.prototype.trim], the blanks
    outside the ASCII range in their UTF-8 encoding. *)

Module Js.

Definition nl : ascii := "010"%char.

(** White space of one byte: TAB, LF, VT, FF, CR and SPACE. *)
Definition is_space (c : ascii) : bool :=
  let n := nat_of_ascii c in
  ((9 <=? n)%nat && (n <=? 13)%nat) || (n =? 32)%nat.

(** White space of two bytes: U+00A0. *)
Definition blank2 (a b : ascii) : bool :=
  (nat_of_ascii a =? 194)%nat && (nat_of_ascii b =? 160)%nat.

(** White space of three bytes: U+1680, U+2000 to U+200A, U+2028, U+2029,
    U+202F, U+205F, U+3000 and U+FEFF. *)
Definition blank3 (a b c : ascii) : bool :=
  let x := nat_of_ascii a in
  let y := nat_of_ascii b in
  let z := nat_of_ascii c in
  ((x =? 225) && (y =? 154) && (z =? 128))%nat
  || ((x =? 226) && (y =? 128)
      && (((128 <=? z) && (z <=? 138)) || (z =? 168) || (z =? 169) || (z =? 175)))%nat
  || ((x =? 226) && (y =? 129) && (z =? 159))%nat
  || ((x =? 227) && (y =? 128) && (z =? 128))%nat
  || ((x =? 239) && (y =? 187) && (z =? 191))%nat.

Fixpoint trimStart (s : string) : string :=
  match s with
  | EmptyString => EmptyString
  | String a s1 =>
      if is_space a then trimStart s1
      else
        match s1 with
        | EmptyString => s
        | String b s2 =>
            if blank2 a b then trimStart s2
            else
              match s2 with
              | EmptyString => s
              | String c s3 => if blank3 a b c then trimStart s3 else s
              end
        end
  end.

(** Nothing but white space. *)
Definition all_blank (s : string) : bool :=
  match trimStart s with
  | EmptyString => true
  | _ => false
  end.

(** The string up to the white space it ends with. *)
Fixpoint trimEnd (s : string) : string :=
  match s with
  | EmptyString => EmptyString
  | String c s' => if all_blank s then EmptyString else String c (trimEnd s')
  end.

Definition trim (s : string) : string := trimEnd (trimStart s).

(** [s.split(sep)] for a one-character separator: the empty string splits
    into one empty piece. *)
Fixpoint split (sep : ascii) (s : string) : list string :=
  match s with
  | EmptyString => [EmptyString]
  | String c s' =>
      if Ascii.eqb c sep then EmptyString :: split sep s'
      else match split sep s' with
           | [] => [String c EmptyString]
           | piece :: pieces => String c piece :: pieces
           end
  end.

(** Truthiness of a string: [Boolean(s)], [s || d], [!s]. *)
Definition truthy (s : string) : bool := negb (s =? EmptyString).

Definition or_else (s d : string) : string := if truthy s then s else d.

(** [xs.join(sep)]. *)
Fixpoint join (sep : string) (xs : list string) : string :=
  match xs with
  | [] => EmptyString
  | [x] => x
  | x :: rest => x ++ sep ++ join sep rest
  end.

(** [xs.includes(x)] on an array of strings. *)
Definition includes (xs : list string) (x : string) : bool :=
  existsb (String.eqb x) xs.

Definition lower (c : ascii) : ascii :=
  let n := nat_of_ascii c in
  if ((65 <=? n)%nat && (n <=? 90)%nat) then ascii_of_nat (n + 32) else c.

Fixpoint toLowerCase (s : string) : string :=
  match s with
  | EmptyString => EmptyString
  | String c s' => String (lower c) (toLowerCase s')
  end.

(** [s.replace(/[:.]/g, "-")]. *)
Fixpoint replace_colon_dot (s : string) : string :=
  match s with
  | EmptyString => EmptyString
  | String c s' =>
      String (if Ascii.eqb c ":"%char || Ascii.eqb c "."%char then "-"%char else c)
             (replace_colon_dot s')
  end.

(** The replacement text of [s.replace(/^~/, r)] when the tilde matched
    before [rest]: in [r], two dollars stand for one, dollar ampersand for
    the match, dollar backtick for what precedes the match (nothing) and
    dollar apostrophe for what follows it; the pattern has no group, so a
    dollar before anything else stands for itself. *)
Fixpoint substitution (r rest : string) : string :=
  match r with
  | EmptyString => EmptyString
  | String c r1 =>
      if Ascii.eqb c "$"%char then
        match r1 with
        | EmptyString => String c EmptyString
        | String d r2 =>
            if Ascii.eqb d "$"%char then String d (substitution r2 rest)
            else if Ascii.eqb d "&"%char then String "~"%char (substitution r2 rest)
            else if Ascii.eqb d "`"%char then substitution r2 rest
            else if Ascii.eqb d "'"%char then rest ++ substitution r2 rest
            else String c (substitution r1 rest)
        end
      else String c (substitution r1 rest)
  end.

(** [s.replace(/^~/, r)]. *)
Definition replace_leading_tilde (s r : string) : string :=
  match s with
  | String "~"%char s' => substitution r s' ++ s'
  | _ => s
  end.

(** [xs.slice(start)] for an integer [start]: a negative start counts from
    the end. *)
Definition slice_from {A : Type} (start : Z) (xs : list A) : list A :=
  if (start <? 0)%Z
  then skipn (Z.to_nat (Z.max (Z.of_nat (List.length xs) + start) 0)) xs
  else skipn (Z.to_nat start) xs.

(** A digit string without the zeros it ends with. *)
Fixpoint strip_zeros (s : string) : string :=
  match s with
  | EmptyString => EmptyString
  | String c s' =>
      match strip_zeros s' with
      | EmptyString => if Ascii.eqb c "0"%char then EmptyString else String c EmptyString
      | t => String c t
      end
  end.

(** Number to string, for an integer: the digits below ten to the power 21,
    the exponent notation from there on (the digits are the integer's own,
    a number that large being held as written only when they are few). *)
Definition Z_to_string (z : Z) : string :=
  if (Z.abs z <? 1000000000000000000000)%Z then NilEmpty.string_of_int (Z.to_int z)
  else
    let digits := NilEmpty.string_of_int (Z.to_int (Z.abs z)) in
    let mantissa :=
      match strip_zeros digits with
      | EmptyString => "0"
      | String d EmptyString => String d EmptyString
      | String d more => String d ("." ++ more)
      end in
    (if (z <? 0)%Z then "-" else "") ++ mantissa ++ "e+"
    ++ NilEmpty.string_of_uint (Nat.to_uint (String.length digits - 1)).

Fixpoint string_forall (p : ascii -> bool) (s : string) : bool :=
  match s with
  | EmptyString => true
  | String c s' => p c && string_forall p s'
  end.

(** [strip_prefix p s] is what follows [p] in [s], when [s] starts with [p]. *)
Fixpoint strip_prefix (p s : string) : option string :=
  match p with
  | EmptyString => Some s
  | String a p' =>
      match s with
      | EmptyString => None
      | String b s' => if Ascii.eqb a b then strip_prefix p' s' else None
      end
  end.

(** [s.includes(sub)] on strings. *)
Fixpoint contains (s sub : string) : bool :=
  String.prefix sub s
  || match s with
     | EmptyString => false
     | String _ s' => contains s' sub
     end.

End Js.

(** ** Data model *)

(** The deployment configuration object. *)
Record Config := {
  host : string;
  user : string;
  port : string;
  keyPath : string;
  remotePath : string;
  backupPath : string;
  localPath : string;
  exclude : list string;
  maxBackups : Z;
  requireConfirmation : bool
}.

(** The object parsed from deploy-config.json: any subset of the keys. *)
Record UserConfig := {
  u_host : option string;
  u_user : option string;
  u_port : option string;
  u_keyPath : option string;
  u_remotePath : option string;
  u_backupPath : option string;
  u_localPath : option string;
  u_exclude : option (list string);
  u_maxBackups : option Z;
  u_requireConfirmation : option bool
}.

(** deploy-config.json on the local disk. *)
Inductive ConfigFile :=
| Absent
| Malformed (why : string)
| Stored (u : UserConfig).

(** What the script reads from its process: the arguments, the environment
    variables it looks up, and the directory of the script. *)
Record Process := {
  argv : list string;
  HOME : option string;
  DEPLOY_HOST : option string;
  DEPLOY_USER : option string;
  DEPLOY_PORT : option string;
  DEPLOY_KEY_PATH : option string;
  DEPLOY_REMOTE_PATH : option string;
  DEPLOY_BACKUP_PATH : option string;
  dirname : string
}.

Record Error := { message : string }.

(** A spawned child process. *)
Inductive Stdio := Pipe | Inherit.

Record Cmd := {
  command : string;
  args : list string;
  stdio : Stdio
}.

(** How a child process ends: it closes with an exit code ([None] is the
    null code of a process ended by a signal) after writing [out] and [err],
    or it could not be spawned. *)
Inductive ProcResult :=
| Closed (code : option Z) (out err : string)
| SpawnError (e : Error).

Definition succeeded (r : ProcResult) : bool :=
  match r with
  | Closed (Some 0%Z) _ _ => true
  | _ => false
  end.

(** The machines behind [spawn]: a state and the answer to each command. *)
Record Transport := {
  machines : Type;
  exec : Cmd -> machines -> ProcResult * machines
}.

Record Spawned := { cmd : Cmd; result : ProcResult }.

Inductive Channel :=
| ConsoleLog
| ConsoleError
| ConsoleWarn
| Prompt          (* readline's question text *)
| ChildStdout     (* output of a child that inherits the terminal *)
| ChildStderr.

(** The world of one invocation.  [stdin] holds the answers: the lines
    readline hands to the questions, one for each question in the order
    asked, up to the end of the input (lines that arrive while no question
    is pending are not among them, see [heard]).  [configFile] is
    deploy-config.json on a disk that takes every write. *)
Record World (T : Transport) := {
  process : Process;
  remote : machines T;
  history : list Spawned;
  console : list (Channel * string);
  stdin : list string;
  configFile : ConfigFile;
  existing : list string;
  now : string
}.

Arguments process {T} _.
Arguments remote {T} _.
Arguments history {T} _.
Arguments console {T} _.
Arguments stdin {T} _.
Arguments configFile {T} _.
Arguments existing {T} _.
Arguments now {T} _.

(** ** The monad of the script

    A computation ends by returning, by throwing, by [process.exit], or it
    stalls: its promise stays pending on a question that finds the input at
    its end. *)

Inductive Outcome (A : Type) :=
| Returned (a : A)
| Thrown (e : Error)
| Exited (code : Z)
| Stalled.

(** How the node process that runs such a computation ends.  The script
    calls [main()] without a handler: an error thrown is an uncaught
    rejection, and when the promise stays pending with the input at its end
    nothing is left to wait for and the process ends with exit code 0. *)
Inductive Ending :=
| Code (code : Z)
| Uncaught (e : Error).

Arguments Returned {A} _.
Arguments Thrown {A} _.
Arguments Exited {A} _.
Arguments Stalled {A}.

Definition ending {A} (o : Outcome A) : Ending :=
  match o with
  | Returned _ => Code 0
  | Thrown e => Uncaught e
  | Exited code => Code code
  | Stalled => Code 0
  end.

Section Script.

Context {T : Transport}.

Definition M (A : Type) : Type := World T -> Outcome A * World T.

Definition ret {A} (a : A) : M A := fun w => (Returned a, w).

Definition bind {A B} (m : M A) (f : A -> M B) : M B :=
  fun w =>
    match m w with
    | (Returned a, w') => f a w'
    | (Thrown e, w') => (Thrown e, w')
    | (Exited c, w') => (Exited c, w')
    | (Stalled, w') => (Stalled, w')
    end.

Definition throw {A} (e : Error) : M A := fun w => (Thrown e, w).

Definition try_catch {A} (m : M A) (handler : Error -> M A) : M A :=
  fun w =>
    match m w with
    | (Thrown e, w') => handler e w'
    | r => r
    end.

Definition process_exit {A} (code : Z) : M A := fun w => (Exited code, w).

(** Awaiting a promise that settles with [o]. *)
Definition await {A} (o : Outcome A) : M A := fun w => (o, w).

Fixpoint for_of {A} (xs : list A) (body : A -> M unit) : M unit :=
  match xs with
  | [] => ret tt
  | x :: rest => bind (body x) (fun _ => for_of rest body)
  end.

Definition when (b : bool) (m : M unit) : M unit := if b then m else ret tt.

End Script.

Declare Scope script_scope.
Delimit Scope script_scope with script.
Notation "x <- m ;; k" := (bind m (fun x => k))
  (at level 100, m at next level, right associativity) : script_scope.
Notation "m ;; k" := (bind m (fun _ => k))
  (at level 100, right associativity) : script_scope.
Open Scope script_scope.

(** ** Effects *)

Definition LF : string := String Js.nl EmptyString.
Definition dquote : string := String "034"%char EmptyString.

(** What a child writes on the terminal it inherits. *)
Definition shown (io : Stdio) (r : ProcResult) : list (Channel * string) :=
  match io, r with
  | Inherit, Closed _ out err => [(ChildStdout, out); (ChildStderr, err)]
  | _, _ => []
  end.

Section Effects.

Context {T : Transport}.

Definition print (ch : Channel) (line : string) : M unit :=
  fun w : World T =>
    (Returned tt,
     {| process := process w; remote := remote w; history := history w;
        console := (console w ++ [(ch, line)])%list;
        stdin := stdin w; configFile := configFile w;
        existing := existing w; now := now w |}).

(** [spawn]: the transport answers, the exit status is recorded, and a
    child that inherits the terminal writes there itself. *)
Definition spawn (c : Cmd) : M ProcResult :=
  fun w : World T =>
    let '(r, m) := exec T c (remote w) in
    (Returned r,
     {| process := process w; remote := m;
        history := (history w ++ [{| cmd := c; result := r |}])%list;
        console := (console w ++ shown (stdio c) r)%list;
        stdin := stdin w; configFile := configFile w;
        existing := existing w; now := now w |}).

(** The answers readline hears, given the batches in which the lines of
    the input arrive, each batch while a question is pending: the first line
    of a batch answers the question, and the lines behind it find no
    question pending and are dropped. *)
Definition heard (batches : list (list string)) : list string :=
  flat_map (firstn 1) batches.

(** [rl.question]: the prompt is written and the next answer settles the
    question; at the end of the input the question is never answered. *)
Definition rl_question (prompt : string) : M string :=
  print Prompt prompt ;;
  fun w : World T =>
    match stdin w with
    | [] => (Stalled, w)
    | answer :: rest =>
        (Returned answer,
         {| process := process w; remote := remote w; history := history w;
            console := console w; stdin := rest; configFile := configFile w;
            existing := existing w; now := now w |})
    end.

Definition getProcess : M Process := fun w : World T => (Returned (process w), w).

Definition existsSync (path : string) : M bool :=
  fun w : World T => (Returned (Js.includes (existing w) path), w).

(** [new Date().toISOString()]. *)
Definition toISOString_now : M string := fun w : World T => (Returned (now w), w).

Definition readConfigFile : M ConfigFile :=
  fun w : World T => (Returned (configFile w), w).

(** [fs.writeFileSync] of the configuration, on a disk that takes the
    write (a write that fails is not modelled): the file then holds what
    [JSON.parse] reads back from the text [JSON.stringify] writes. *)
Definition writeConfigFile (u : UserConfig) : M unit :=
  fun w : World T =>
    (Returned tt,
     {| process := process w; remote := remote w; history := history w;
        console := console w; stdin := stdin w; configFile := Stored u;
        existing := existing w; now := now w |}).

End Effects.

(** ** Configuration *)

(** [process.env.X || d]. *)
Definition env_or (x : option string) (d : string) : string :=
  match x with
  | Some s => Js.or_else s d
  | None => d
  end.

(** [path.join(dir, name)] for the script's directory. *)
Definition path_join (dir name : string) : string := dir ++ "/" ++ name.

Definition DEFAULT_CONFIG (p : Process) : Config :=
  {| host := env_or (DEPLOY_HOST p) "";
     user := env_or (DEPLOY_USER p) "root";
     port := env_or (DEPLOY_PORT p) "22";
     keyPath := env_or (DEPLOY_KEY_PATH p) "~/.ssh/id_rsa";
     remotePath := env_or (DEPLOY_REMOTE_PATH p) "/var/www/nomasdesinformacion";
     backupPath := env_or (DEPLOY_BACKUP_PATH p) "/var/www/nomasdesinformacion-backups";
     localPath := path_join (dirname p) "public";
     exclude := [".git"; "node_modules"; ".env"; "*.log"; ".DS_Store"];
     maxBackups := 5;
     requireConfirmation := true |}.

Definition over {A} (x : option A) (d : A) : A :=
  match x with Some v => v | None => d end.

(** [{ ...DEFAULT_CONFIG, ...userConfig }]. *)
Definition merge (d : Config) (u : UserConfig) : Config :=
  {| host := over (u_host u) (host d);
     user := over (u_user u) (user d);
     port := over (u_port u) (port d);
     keyPath := over (u_keyPath u) (keyPath d);
     remotePath := over (u_remotePath u) (remotePath d);
     backupPath := over (u_backupPath u) (backupPath d);
     localPath := over (u_localPath u) (localPath d);
     exclude := over (u_exclude u) (exclude d);
     maxBackups := over (u_maxBackups u) (maxBackups d);
     requireConfirmation := over (u_requireConfirmation u) (requireConfirmation d) |}.

(** [{ ...config }] with [localPath] deleted. *)
Definition cleanConfig (c : Config) : UserConfig :=
  {| u_host := Some (host c);
     u_user := Some (user c);
     u_port := Some (port c);
     u_keyPath := Some (keyPath c);
     u_remotePath := Some (remotePath c);
     u_backupPath := Some (backupPath c);
     u_localPath := None;
     u_exclude := Some (exclude c);
     u_maxBackups := Some (maxBackups c);
     u_requireConfirmation := Some (requireConfirmation c) |}.

Definition expandHome (p : Process) (key : string) : string :=
  Js.replace_leading_tilde key (over (HOME p) "undefined").

Definition show_code (code : option Z) : string :=
  match code with
  | Some z => Js.Z_to_string z
  | None => "null"
  end.

Record Output := { stdout : string; stderr : string; exitCode : Z }.

Definition usage : string :=
"
🚀 Automated Deployment to DigitalOcean Droplet

Usage:
  node deploy.js              Deploy to configured droplet
  node deploy.js --dry-run    Simulate deployment without changes
  node deploy.js --rollback   Restore previous backup
  node deploy.js --config     Configure deployment settings
  node deploy.js --help       Show this help message

Configuration:
  First time? Run: node deploy.js --config

  Or add to .env:
    DEPLOY_HOST=your-droplet-ip
    DEPLOY_USER=root
    DEPLOY_PORT=22
    DEPLOY_KEY_PATH=~/.ssh/id_rsa
    DEPLOY_REMOTE_PATH=/var/www/nomasdesinformacion
    DEPLOY_BACKUP_PATH=/var/www/nomasdesinformacion-backups

Examples:
  node deploy.js --config     # Interactive setup
  node deploy.js --dry-run    # Test deployment
  node deploy.js              # Deploy for real
  node deploy.js --rollback   # Undo last deployment
".

(** ** The script *)

Record Options := { dryRun : bool }.

(** The remote shell commands the script composes. *)
Definition sh_echo : string := "echo " ++ dquote ++ "Connection successful" ++ dquote.
Definition sh_mkdir (c : Config) : string := "mkdir -p " ++ backupPath c.
Definition sh_copy (c : Config) (backupName : string) : string :=
  "cp -r " ++ remotePath c ++ " " ++ backupPath c ++ "/" ++ backupName.
Definition sh_list (c : Config) : string := "ls -1t " ++ backupPath c.
Definition sh_remove (c : Config) (backup : string) : string :=
  "rm -rf " ++ backupPath c ++ "/" ++ backup.
Definition sh_restore (c : Config) (targetBackup : string) : string :=
  "rm -rf " ++ remotePath c ++ " && cp -r " ++ backupPath c ++ "/" ++ targetBackup
  ++ " " ++ remotePath c.

(** The argument array of every ssh invocation. *)
Definition ssh_args (key : string) (c : Config) (sh : string) : list string :=
  ["-i"; key; "-p"; port c; user c ++ "@" ++ host c; sh].

Definition rsync_args (key : string) (c : Config) (dry : bool) : list string :=
  let excludeArgs := flat_map (fun e => ["--exclude"; e]) (exclude c) in
  let shell := "ssh -i " ++ key ++ " -p " ++ port c in
  let source := localPath c ++ "/" in
  let target := user c ++ "@" ++ host c ++ ":" ++ remotePath c ++ "/" in
  filter Js.truthy
    (["-avz"; "--delete"; if dry then "--dry-run" else ""]
     ++ excludeArgs
     ++ ["-e"; shell; source; target])%list.

(** The listing parsed from the output of [ls -1t]. *)
Definition parse_listing (out : string) : list string :=
  filter Js.truthy (Js.split Js.nl (Js.trim out)).

(** The promise of [runCommand] settles in the handlers of the child's
    close and error events; output is collected only from a silent child. *)
Definition settle (silent : bool) (r : ProcResult) : Outcome Output :=
  match r with
  | Closed code out err =>
      let stdout := if silent then out else "" in
      let stderr := if silent then err else "" in
      match code with
      | Some 0%Z => Returned {| stdout := stdout; stderr := stderr; exitCode := 0 |}
      | _ =>
          Thrown {| message := "Command failed with code " ++ show_code code ++ LF
                               ++ Js.or_else stderr stdout |}
      end
  | SpawnError e => Thrown e
  end.

(** The characters of an ISO 8601 timestamp. *)
Definition iso_char (c : ascii) : bool :=
  let n := nat_of_ascii c in
  ((48 <=? n)%nat && (n <=? 57)%nat)
  || (n =? 43)%nat || (n =? 45)%nat || (n =? 46)%nat || (n =? 58)%nat
  || (n =? 84)%nat || (n =? 90)%nat.

Definition iso_timestamp (s : string) : bool := Js.string_forall iso_char s.

Section Deploy.

Context {T : Transport}.
#[local] Abbreviation M := (@M T).

Definition loadConfig : M Config :=
  p <- getProcess ;;
  f <- readConfigFile ;;
  match f with
  | Absent => ret (DEFAULT_CONFIG p)
  | Malformed why => throw {| message := why |}
  | Stored userConfig => ret (merge (DEFAULT_CONFIG p) userConfig)
  end.

Definition saveConfig (config : Config) : M unit :=
  p <- getProcess ;;
  let configPath := path_join (dirname p) "deploy-config.json" in
  writeConfigFile (cleanConfig config) ;;
  print ConsoleLog ("✅ Configuration saved to: " ++ configPath).

Definition runCommand (command : string) (args : list string) (silent : bool)
  : M Output :=
  print ConsoleLog (LF ++ "💻 Running: " ++ command ++ " " ++ Js.join " " args) ;;
  r <- spawn {| command := command; args := args;
                stdio := if silent then Pipe else Inherit |} ;;
  await (settle silent r).

Definition testConnection (config : Config) : M bool :=
  print ConsoleLog (LF ++ "🔐 Testing SSH connection...") ;;
  try_catch
    (p <- getProcess ;;
     let keyPath := expandHome p (keyPath config) in
     runCommand "ssh" (ssh_args keyPath config sh_echo) true ;;
     print ConsoleLog "✅ SSH connection successful" ;;
     ret true)
    (fun error =>
     print ConsoleError ("❌ SSH connection failed: " ++ message error) ;;
     print ConsoleError (LF ++ "🔧 Troubleshooting:") ;;
     print ConsoleError "  1. Check that your SSH key is correct" ;;
     print ConsoleError "  2. Verify the host, user, and port" ;;
     p <- getProcess ;;
     let keyPath := expandHome p (keyPath config) in
     print ConsoleError ("  3. Test manually: ssh -i " ++ keyPath ++ " "
                         ++ user config ++ "@" ++ host config) ;;
     ret false).

Definition cleanOldBackups (config : Config) : M unit :=
  try_catch
    (p <- getProcess ;;
     let keyPath := expandHome p (keyPath config) in
     result <- runCommand "ssh" (ssh_args keyPath config (sh_list config)) true ;;
     let backups := parse_listing (stdout result) in
     when (Z.of_nat (List.length backups) >? maxBackups config)%Z
       (print ConsoleLog (LF ++ "🧹 Cleaning old backups (keeping "
                          ++ Js.Z_to_string (maxBackups config) ++ " most recent)...") ;;
        let toDelete := Js.slice_from (maxBackups config) backups in
        for_of toDelete (fun backup =>
          runCommand "ssh" (ssh_args keyPath config (sh_remove config backup)) true ;;
          print ConsoleLog ("   Deleted: " ++ backup))))
    (fun error =>
     print ConsoleWarn ("⚠️  Could not clean old backups: " ++ message error)).

Definition backupNameAt (timestamp : string) : string :=
  "backup-" ++ Js.replace_colon_dot timestamp.

Definition createBackup (config : Config) : M string :=
  print ConsoleLog (LF ++ "💾 Creating backup on remote server...") ;;
  iso <- toISOString_now ;;
  let backupName := backupNameAt iso in
  try_catch
    (p <- getProcess ;;
     let keyPath := expandHome p (keyPath config) in
     runCommand "ssh" (ssh_args keyPath config (sh_mkdir config)) true ;;
     runCommand "ssh" (ssh_args keyPath config (sh_copy config backupName)) false ;;
     print ConsoleLog ("✅ Backup created: " ++ backupName) ;;
     cleanOldBackups config ;;
     ret backupName)
    (fun error =>
     print ConsoleError ("❌ Backup creation failed: " ++ message error) ;;
     throw error).

Definition deployFiles (config : Config) (dryRun : bool) : M bool :=
  print ConsoleLog (LF ++ "🚀 "
                    ++ (if dryRun then "Simulating deployment (dry-run)"
                        else "Deploying files") ++ "...") ;;
  p <- getProcess ;;
  let keyPath := expandHome p (keyPath config) in
  let rsyncArgs := rsync_args keyPath config dryRun in
  try_catch
    (runCommand "rsync" rsyncArgs false ;;
     print ConsoleLog ("✅ " ++ (if dryRun then "Dry-run complete"
                                 else "Deployment successful")) ;;
     ret true)
    (fun error =>
     print ConsoleError ("❌ Deployment failed: " ++ message error) ;;
     throw error).

(** [backupName || backups[0]]. *)
Definition targetOf (backupName : option string) (backups : list string) : string :=
  let first := hd "undefined" backups in
  match backupName with
  | Some name => Js.or_else name first
  | None => first
  end.

Definition rollback (config : Config) (backupName : option string) : M bool :=
  print ConsoleLog (LF ++ "⏮️  Rolling back to previous version...") ;;
  try_catch
    (p <- getProcess ;;
     let keyPath := expandHome p (keyPath config) in
     result <- runCommand "ssh" (ssh_args keyPath config (sh_list config)) true ;;
     let backups := parse_listing (stdout result) in
     if (List.length backups =? 0)%nat then
       print ConsoleError "❌ No backups available for rollback" ;;
       ret false
     else
       let targetBackup := targetOf backupName backups in
       if negb (Js.includes backups targetBackup) then
         print ConsoleError ("❌ Backup not found: " ++ targetBackup) ;;
         print ConsoleLog (LF ++ "Available backups:") ;;
         for_of backups (fun b => print ConsoleLog ("  - " ++ b)) ;;
         ret false
       else
         print ConsoleLog ("📦 Rolling back to: " ++ targetBackup) ;;
         runCommand "ssh" (ssh_args keyPath config (sh_restore config targetBackup))
                    false ;;
         print ConsoleLog "✅ Rollback successful" ;;
         ret true)
    (fun error =>
     print ConsoleError ("❌ Rollback failed: " ++ message error) ;;
     ret false).

(** The [question] helper of [configureDeployment]. *)
Definition question (prompt defaultValue : string) : M string :=
  answer <- rl_question (prompt ++ " [" ++ defaultValue ++ "]: ") ;;
  ret (Js.or_else (Js.trim answer) defaultValue).

Definition configureDeployment : M unit :=
  print ConsoleLog (LF ++ "⚙️  Deployment Configuration Setup") ;;
  print ConsoleLog ("==================================" ++ LF) ;;
  config <- loadConfig ;;
  host' <- question "Droplet IP or hostname" (host config) ;;
  user' <- question "SSH user" (user config) ;;
  port' <- question "SSH port" (port config) ;;
  keyPath' <- question "SSH key path" (keyPath config) ;;
  remotePath' <- question "Remote site path" (remotePath config) ;;
  backupPath' <- question "Remote backup path" (backupPath config) ;;
  let config :=
    {| host := host'; user := user'; port := port'; keyPath := keyPath';
       remotePath := remotePath'; backupPath := backupPath';
       localPath := localPath config; exclude := exclude config;
       maxBackups := maxBackups config;
       requireConfirmation := requireConfirmation config |} in
  connected <- testConnection config ;;
  if connected then
    saveConfig config ;;
    print ConsoleLog (LF ++ "✅ Configuration complete and tested!")
  else
    print ConsoleLog (LF ++ "⚠️  Configuration saved but connection test failed.") ;;
    print ConsoleLog "   Please verify your settings and try again." ;;
    saveConfig config.

Definition confirm (message : string) : M bool :=
  answer <- rl_question (message ++ " (y/N): ") ;;
  ret (Js.toLowerCase answer =? "y").

(** The early returns of the source are the branches that end in
    [ret false]; the confirmation is asked for inside the first operand of
    the bind that tests it. *)
Definition deploy (options : Options) : M bool :=
  print ConsoleLog (LF ++ "🚀 Deployment to DigitalOcean Droplet") ;;
  print ConsoleLog ("=====================================" ++ LF) ;;
  config <- loadConfig ;;
  if negb (Js.truthy (host config)) then
    print ConsoleError "❌ Deployment not configured." ;;
    print ConsoleError (LF ++ "📝 Run: node deploy.js --config") ;;
    ret false
  else
    print ConsoleLog ("📍 Target: " ++ user config ++ "@" ++ host config ++ ":"
                      ++ remotePath config) ;;
    print ConsoleLog ("📂 Source: " ++ localPath config) ;;
    found <- existsSync (localPath config) ;;
    if negb found then
      print ConsoleError ("❌ Local path not found: " ++ localPath config) ;;
      ret false
    else
      connected <- testConnection config ;;
      if negb connected then ret false
      else
        confirmed <-
          (if requireConfirmation config && negb (dryRun options) then
             confirm (LF ++ "⚠️  This will replace files on the remote server. Continue?")
           else ret true) ;;
        if negb confirmed then
          print ConsoleLog "❌ Deployment cancelled" ;;
          ret false
        else
          try_catch
            (when (negb (dryRun options))
               (createBackup config ;; ret tt) ;;
             deployFiles config (dryRun options) ;;
             when (negb (dryRun options))
               (print ConsoleLog (LF ++ "✅ Deployment Complete!") ;;
                print ConsoleLog "=======================" ;;
                print ConsoleLog (LF ++ "🌐 Site should be live at: http://"
                                  ++ host config) ;;
                print ConsoleLog (LF ++ "💡 Tip: If something went wrong, run: "
                                  ++ "node deploy.js --rollback")) ;;
             ret true)
            (fun error =>
             print ConsoleError (LF ++ "❌ Deployment failed: " ++ message error) ;;
             print ConsoleError (LF ++ "🔄 Consider rolling back: "
                                 ++ "node deploy.js --rollback") ;;
             ret false).

Definition main : M unit :=
  p <- getProcess ;;
  let args := skipn 2 (argv p) in
  when (Js.includes args "--help" || Js.includes args "-h")
    (print ConsoleLog usage ;;
     process_exit 0%Z) ;;
  when (Js.includes args "--config")
    (configureDeployment ;;
     process_exit 0%Z) ;;
  when (Js.includes args "--rollback")
    (config <- loadConfig ;;
     success <- rollback config None ;;
     process_exit (if success then 0 else 1)%Z) ;;
  let dryRun := Js.includes args "--dry-run" in
  success <- deploy {| dryRun := dryRun |} ;;
  process_exit (if success then 0 else 1)%Z.

End Deploy.

(** ** A remote host

    A transport for the commands the script composes: the host keeps the
    live site directory and the backup directory, whose entries are listed
    newest first by [ls -1t].  A directory's content is a label.  The shell
    takes each path and each name as one word, whatever it contains (word
    splitting and quoting are not modelled).  A copy puts the new entry
    first; a copy onto an entry that exists lands inside it.  rsync reads
    its arguments as rsync does and takes a path too many for a source that
    is missing.  The restore command removes the site even when its copy
    then fails.  Each spawned command consumes one entry of [outages]:
    [true] means that the connection fails for that command (exit status
    255, nothing changes on the host). *)

Module Host.

Definition Tree := string.

Record State := {
  sitePath : string;
  backupRoot : string;
  site : option Tree;
  backups : list (string * Tree);
  upload : Tree;
  outages : list bool
}.

Definition names (st : State) : list string := map fst (backups st).

Definition with_outages (o : list bool) (st : State) : State :=
  {| sitePath := sitePath st; backupRoot := backupRoot st; site := site st;
     backups := backups st; upload := upload st; outages := o |}.

Definition with_site (s : option Tree) (st : State) : State :=
  {| sitePath := sitePath st; backupRoot := backupRoot st; site := s;
     backups := backups st; upload := upload st; outages := outages st |}.

Definition with_backups (b : list (string * Tree)) (st : State) : State :=
  {| sitePath := sitePath st; backupRoot := backupRoot st; site := site st;
     backups := b; upload := upload st; outages := outages st |}.

Definition ok (out : string) : ProcResult := Closed (Some 0%Z) out "".
Definition failed (code : Z) (err : string) : ProcResult := Closed (Some code) "" err.

(** The output of [ls -1t]: one name per line. *)
Definition listing (entries : list string) : string :=
  fold_right (fun name rest => name ++ LF ++ rest) "" entries.

Definition rm_backup (st : State) (name : string) : string :=
  "rm -rf " ++ backupRoot st ++ "/" ++ name.

Definition restore_from (st : State) (name : string) : string :=
  "rm -rf " ++ sitePath st ++ " && cp -r " ++ backupRoot st ++ "/" ++ name
  ++ " " ++ sitePath st.

Definition is_not (name : string) (entry : string * Tree) : bool :=
  negb (fst entry =? name).

(** A directory with a copy put inside it. *)
Definition inside (outer inner : Tree) : Tree := outer ++ "/" ++ inner.

(** What [cp -r] leaves under [name]: the copy, or, when the entry exists
    already, the entry with the copy inside it. *)
Definition landed (st : State) (name : string) (content : Tree) : Tree :=
  match find (fun entry => name =? fst entry) (backups st) with
  | Some (_, old) => inside old content
  | None => content
  end.

(** New files laid over a directory from which nothing was deleted. *)
Definition laid_over (new : Tree) (old : option Tree) : Tree :=
  match old with
  | Some o => o ++ "+" ++ new
  | None => new
  end.

(** The remote shell, on the command line ssh hands over. *)
Definition shell (sh : string) (st : State) : ProcResult * State :=
  if sh =? "echo " ++ dquote ++ "Connection successful" ++ dquote then
    (ok ("Connection successful" ++ LF), st)
  else if sh =? "mkdir -p " ++ backupRoot st then
    (ok "", st)
  else if sh =? "ls -1t " ++ backupRoot st then
    (ok (listing (names st)), st)
  else
    match find (fun entry => sh =? rm_backup st (fst entry)) (backups st) with
    | Some (name, _) => (ok "", with_backups (filter (is_not name) (backups st)) st)
    | None =>
    match find (fun entry => sh =? restore_from st (fst entry)) (backups st) with
    | Some (_, content) => (ok "", with_site (Some content) st)
    | None =>
    match Js.strip_prefix ("cp -r " ++ sitePath st ++ " " ++ backupRoot st ++ "/") sh with
    | Some name =>
        match site st with
        | Some content =>
            (ok "",
             with_backups ((name, landed st name content)
                           :: filter (is_not name) (backups st)) st)
        | None => (failed 1 "cp: cannot stat: No such file or directory", st)
        end
    | None =>
    if String.prefix ("rm -rf " ++ sitePath st ++ " && ") sh then
      (failed 1 "cp: cannot stat: No such file or directory", with_site None st)
    else if String.prefix "rm -rf " sh then
      (ok "", st)
    else
      (failed 127 "command not found", st)
    end end end.

(** The arguments of rsync as rsync reads them, options and paths:
    [--exclude] and [-e] take the argument that follows, whatever it is, and
    any other argument that starts with a hyphen is an option. *)
Fixpoint rsync_reads (args : list string) : option (list string * list string) :=
  match args with
  | [] => Some ([], [])
  | a :: rest =>
      if (a =? "--exclude") || (a =? "-e") then
        match rest with
        | [] => None
        | _ :: rest' =>
            match rsync_reads rest' with
            | Some (options, paths) => Some (a :: options, paths)
            | None => None
            end
        end
      else
        match rsync_reads rest with
        | Some (options, paths) =>
            if String.prefix "-" a then Some (a :: options, paths)
            else Some (options, a :: paths)
        | None => None
        end
  end.

Definition simulates (options : list string) : bool := Js.includes options "--dry-run".

(** rsync with one source and the target sends the upload.  With a path
    more, one of its sources is missing: it sends what it can, deletes
    nothing and exits with status 23.  Otherwise it refuses its arguments. *)
Definition sync (args : list string) (st : State) : ProcResult * State :=
  match rsync_reads args with
  | Some (options, [_; _]) =>
      (ok "", if simulates options then st else with_site (Some (upload st)) st)
  | Some (options, _ :: _ :: _ :: _) =>
      (failed 23 "rsync error: some files/attrs were not transferred",
       if simulates options then st
       else with_site (Some (laid_over (upload st) (site st))) st)
  | _ => (failed 1 "rsync error: syntax or usage error", st)
  end.

Definition run (c : Cmd) (st : State) : ProcResult * State :=
  match outages st with
  | true :: later =>
      (failed 255 "ssh: connect to host: Connection timed out", with_outages later st)
  | _ =>
      let st := with_outages (tl (outages st)) st in
      if command c =? "ssh" then shell (last (args c) "") st
      else if command c =? "rsync" then sync (args c) st
      else (SpawnError {| message := "spawn " ++ command c ++ " ENOENT" |}, st)
  end.

Definition transport : Transport := {| machines := State; exec := run |}.

(** The host serves the directories a configuration names. *)
Definition serves (st : State) (c : Config) : Prop :=
  sitePath st = remotePath c /\ backupRoot st = backupPath c.


(** rsync takes the arguments built from the configuration for its options,
    one source and the target: no exclude pattern is empty and neither path
    starts with a hyphen. *)
Definition sendable (c : Config) : Prop :=
  Forall (fun e => Js.truthy e = true) (exclude c)
  /\ String.prefix "-" (localPath c) = false
  /\ String.prefix "-" (user c) = false.

(** Names made of letters, digits and the signs + - . _ (the names of the
    backups the script creates are of this kind). *)
Definition plain_char (c : ascii) : bool :=
  let n := nat_of_ascii c in
  ((48 <=? n)%nat && (n <=? 57)%nat) || ((65 <=? n)%nat && (n <=? 90)%nat)
  || ((97 <=? n)%nat && (n <=? 122)%nat)
  || (n =? 43)%nat || (n =? 45)%nat || (n =? 46)%nat || (n =? 95)%nat.

Definition plain_name (s : string) : bool :=
  Js.truthy s && Js.string_forall plain_char s.

Definition spaceless (s : string) : bool :=
  Js.string_forall (fun c => negb (Js.is_space c)) s.

(** The backup directory holds distinct entries with plain names. *)
Definition tidy_backups (st : State) : Prop :=
  Forall (fun n => plain_name n = true) (names st) /\ NoDup (names st).

(** An entry survives the removal of [deleted]. *)
Definition kept (deleted : list string) (entry : string * Tree) : bool :=
  negb (Js.includes deleted (fst entry)).

End Host.

(** ** Vocabulary of the statements *)

Definition entry (c : Cmd) (r : ProcResult) : Spawned := {| cmd := c; result := r |}.

(** The ssh command the script spawns for the remote command line [sh]. *)
Definition ssh (p : Process) (c : Config) (sh : string) (io : Stdio) : Cmd :=
  {| command := "ssh"; args := ssh_args (expandHome p (keyPath c)) c sh; stdio := io |}.

(** The file synchronization command. *)
Definition rsync (p : Process) (c : Config) (dry : bool) : Cmd :=
  {| command := "rsync"; args := rsync_args (expandHome p (keyPath c)) c dry;
     stdio := Inherit |}.

Definition connection_test (p : Process) (c : Config) : Cmd := ssh p c sh_echo Pipe.

Definition outcome_map {A B} (f : A -> B) (o : Outcome A) : Outcome B :=
  match o with
  | Returned a => Returned (f a)
  | Thrown e => Thrown e
  | Exited c => Exited c
  | Stalled => Stalled
  end.

(** A command of the retention cleanup: the listing or a removal. *)
Definition cleanup_command (p : Process) (c : Config) (x : Cmd) : Prop :=
  x = ssh p c (sh_list c) Pipe \/ exists backup, x = ssh p c (sh_remove c backup) Pipe.

Definition all_succeeded (h : list Spawned) : Prop :=
  Forall (fun x => succeeded (result x) = true) h.

(** The confirmation gate lets a real deploy through: no confirmation is
    required, or the next line of input is the letter y in either case. *)
Definition gate_open {T} (cfg : Config) (w : World T) : Prop :=
  requireConfirmation cfg = false
  \/ exists answer rest, stdin w = answer :: rest /\ (Js.toLowerCase answer =? "y") = true.

(** The flags of the command line. *)
Definition flags (p : Process) : list string := skipn 2 (argv p).
Definition wants_help (p : Process) : bool :=
  Js.includes (flags p) "--help" || Js.includes (flags p) "-h".
Definition wants (flag : string) (p : Process) : bool := Js.includes (flags p) flag.

(** ** The claims as the specification words them *)



(** The error of a failed command carries what the command wrote: its
    standard error, or its standard output when that is empty. *)
Definition carries_output (e : Error) (r : ProcResult) : Prop :=
  match r with
  | Closed _ out err => Js.contains (message e) (Js.or_else err out) = true
  | SpawnError e' => e = e'
  end.

Definition sync_error_claim {T} (cfg : Config) (dry : bool) (w : World T) : Prop :=
  forall r m,
    exec T (rsync (process w) cfg dry) (remote w) = (r, m) ->
    (succeeded r = true -> fst (deployFiles cfg dry w) = Returned true)
    /\ (succeeded r = false ->
        exists e, fst (deployFiles cfg dry w) = Thrown e /\ carries_output e r).


(** ** Example worlds *)

Module Example.

Definition proc (flags : list string) : Process :=
  {| argv := "node" :: "deploy.js" :: flags;
     HOME := Some "/home/me";
     DEPLOY_HOST := Some "example.org";
     DEPLOY_USER := None;
     DEPLOY_PORT := None;
     DEPLOY_KEY_PATH := None;
     DEPLOY_REMOTE_PATH := Some "/srv/site";
     DEPLOY_BACKUP_PATH := Some "/srv/backups";
     dirname := "/home/me/blog" |}.

Definition host (outages : list bool) : Host.State :=
  {| Host.sitePath := "/srv/site";
     Host.backupRoot := "/srv/backups";
     Host.site := Some "v3";
     Host.backups := [("backup-c", "v2"); ("backup-b", "v1"); ("backup-a", "v0")];
     Host.upload := "v4";
     Host.outages := outages |}.

Definition stored (limit : Z) : UserConfig :=
  {| u_host := None; u_user := None; u_port := None; u_keyPath := None;
     u_remotePath := None; u_backupPath := None; u_localPath := None;
     u_exclude := None; u_maxBackups := Some limit; u_requireConfirmation := None |}.

Definition config (limit : Z) : Config := merge (DEFAULT_CONFIG (proc [])) (stored limit).

(** The same configuration with one exclude pattern, the empty one. *)
Definition careless : Config :=
  merge (DEFAULT_CONFIG (proc []))
    {| u_host := None; u_user := None; u_port := None; u_keyPath := None;
       u_remotePath := None; u_backupPath := None; u_localPath := None;
       u_exclude := Some [""]; u_maxBackups := Some 2%Z;
       u_requireConfirmation := None |}.

Definition world (flags : list string) (outages : list bool) (input : list string)
  (limit : Z) : World Host.transport :=
  Build_World Host.transport (proc flags) (host outages) [] [] input
    (Stored (stored limit)) ["/home/me/blog/public"] "2024-01-01T00:00:00.000Z".





(** The same world before the site was ever built locally. *)
Definition unbuilt (flags : list string) : World Host.transport :=
  Build_World Host.transport (proc flags) (host []) [] [] ["y"]
    (Stored (stored 2)) [] "2024-01-01T00:00:00.000Z".

(** The world a later invocation starts from: the clock has moved on and
    a new answer waits on standard input. *)
Definition later (t : string) (w : World Host.transport) : World Host.transport :=
  Build_World Host.transport (process w) (remote w) (history w) (console w) ["y"]
    (configFile w) (existing w) t.

End Example.

(** ** Further vocabulary *)

(** The configuration after the six answers of the interactive setup: a
    blank answer keeps the value that was loaded. *)
Definition answered (c : Config) (a1 a2 a3 a4 a5 a6 : string) : Config :=
  {| host := Js.or_else (Js.trim a1) (host c);
     user := Js.or_else (Js.trim a2) (user c);
     port := Js.or_else (Js.trim a3) (port c);
     keyPath := Js.or_else (Js.trim a4) (keyPath c);
     remotePath := Js.or_else (Js.trim a5) (remotePath c);
     backupPath := Js.or_else (Js.trim a6) (backupPath c);
     localPath := localPath c; exclude := exclude c; maxBackups := maxBackups c;
     requireConfirmation := requireConfirmation c |}.

(** The command that removes one backup. *)
Definition removal (p : Process) (c : Config) (backup : string) : Cmd :=
  ssh p c (sh_remove c backup) Pipe.

(** The backups [cleanOldBackups] sets out to delete, for a parsed listing. *)
Definition surplus (c : Config) (backups : list string) : list string :=
  if (Z.of_nat (List.length backups) >? maxBackups c)%Z
  then Js.slice_from (maxBackups c) backups
  else [].

(** What [filter(Boolean)] leaves of the pair pushed for an exclude pattern. *)
Definition exclude_pair (e : string) : list string :=
  if Js.truthy e then ["--exclude"; e] else ["--exclude"].

Definition is_digit (c : ascii) : bool :=
  let n := nat_of_ascii c in (48 <=? n)%nat && (n <=? 57)%nat.

(** [s] is written after [pattern]: a digit where the pattern has the
    letter d, the pattern's own character elsewhere. *)
Fixpoint fits (pattern s : string) : bool :=
  match pattern, s with
  | EmptyString, EmptyString => true
  | String p pattern', String c s' =>
      (if Ascii.eqb p "d"%char then is_digit c else Ascii.eqb c p) && fits pattern' s'
  | _, _ => false
  end.

(** What [toISOString] returns for the years 0 to 9999. *)
Definition iso_instant (t : string) : bool := fits "dddd-dd-ddTdd:dd:dd.dddZ" t.

Definition dashed (c : ascii) : ascii :=
  if Ascii.eqb c ":"%char || Ascii.eqb c "."%char then "-"%char else c.

(** ** The post scanner of regenerate-post.js *)

Module Posts.

(** What stands at a path below public/posts: a directory with the entries
    [fs.readdirSync] lists, in that order; a directory that cannot be read;
    a link whose target is missing, which [fs.statSync] cannot follow; or
    anything else. *)
#[warnings="-register-all"]
Inductive Node :=
| File
| Dir (items : list (string * Node))
| Locked
| Dangling.

(** [s.endsWith(suffix)]. *)
Definition endsWith (s suffix : string) : bool :=
  let n := String.length s in
  let k := String.length suffix in
  (k <=? n)%nat && (substring (n - k) k s =? suffix).

(** The test of [scanDirectory] on the name of an entry that is no directory. *)
Definition is_post (item : string) : bool :=
  endsWith item ".html" && negb (endsWith item ".backup.html").

(** The errors of [fs.statSync] and [fs.readdirSync]. *)
Definition ENOENT (path : string) : Error :=
  {| message := "ENOENT: no such file or directory, stat '" ++ path ++ "'" |}.
Definition EACCES (path : string) : Error :=
  {| message := "EACCES: permission denied, scandir '" ++ path ++ "'" |}.
Definition ENOTDIR (path : string) : Error :=
  {| message := "ENOTDIR: not a directory, scandir '" ++ path ++ "'" |}.

(** The loop of [scanDirectory] over the entries of a directory, [scan]
    being the recursive call: the paths pushed, or the first error. *)
Fixpoint scanItems (scan : string -> Node -> Outcome (list string)) (dir : string)
  (items : list (string * Node)) : Outcome (list string) :=
  match items with
  | [] => Returned []
  | (item, child) :: rest =>
      let fullPath := path_join dir item in
      match
        match child with
        | Dangling => Thrown (ENOENT fullPath)
        | Dir _ | Locked => scan fullPath child
        | File => Returned (if is_post item then [fullPath] else [])
        end
      with
      | Returned found =>
          match scanItems scan dir rest with
          | Returned more => Returned (found ++ more)%list
          | other => other
          end
      | other => other
      end
  end.

(** [scanDirectory(dir)], as the list of the paths it pushes: nothing where
    [fs.existsSync] finds nothing. *)
Fixpoint scanDirectory (dir : string) (node : Node) : Outcome (list string) :=
  match node with
  | Dangling => Returned []
  | File => Thrown (ENOTDIR dir)
  | Locked => Thrown (EACCES dir)
  | Dir items =>
      (fix each (items : list (string * Node)) : Outcome (list string) :=
         match items with
         | [] => Returned []
         | (item, child) :: rest =>
             let fullPath := path_join dir item in
             match
               match child with
               | Dangling => Thrown (ENOENT fullPath)
               | Dir _ | Locked => scanDirectory fullPath child
               | File => Returned (if is_post item then [fullPath] else [])
               end
             with
             | Returned found =>
                 match each rest with
                 | Returned more => Returned (found ++ more)%list
                 | other => other
                 end
             | other => other
             end
         end) items
  end.

(** [findAllPosts()], given what stands at public/posts, if anything. *)
Definition findAllPosts (p : Process) (posts : option Node) : Outcome (list string) :=
  let postsDir := path_join (path_join (dirname p) "public") "posts" in
  match posts with
  | None => Returned []
  | Some node => scanDirectory postsDir node
  end.

(** Every entry below can be looked at and every directory read. *)
Fixpoint readable (node : Node) : bool :=
  match node with
  | File => true
  | Locked | Dangling => false
  | Dir items =>
      (fix all (items : list (string * Node)) : bool :=
         match items with
         | [] => true
         | (_, child) :: rest => readable child && all rest
         end) items
  end.

(** [path] leads from the entries of a directory down to an entry that is
    no directory. *)
Inductive file_at : list (string * Node) -> list string -> Prop :=
| file_here items item : In (item, File) items -> file_at items [item]
| file_below items d sub path :
    In (d, Dir sub) items -> file_at sub path -> file_at items (d :: path).

(** The path of an entry reached through [path] from [dir]. *)
Definition under (dir : string) (path : list string) : string :=
  fold_left path_join path dir.

Fixpoint depth (node : Node) : nat :=
  match node with
  | Dir items =>
      S ((fix each (items : list (string * Node)) : nat :=
            match items with
            | [] => 0
            | (_, child) :: rest => Nat.max (depth child) (each rest)
            end) items)
  | _ => 0
  end.

(** A small tree of posts, and the same with a link that leads nowhere. *)
Definition sample : list (string * Node) :=
  [("index.html", File);
   ("2024", Dir [("vacunas.html", File); ("vacunas.backup.html", File);
                 ("notes.txt", File)]);
   ("drafts.html", Dir [])].

Definition broken : list (string * Node) :=
  [("index.html", File); ("2024", Dir [("old.html", Dangling)])].

End Posts.

(** ** Reasoning about runs *)

(** [evolve w m h lines]: the world after commands were spawned ([h], leaving
    the machines in [m]) and [lines] were written to the console. *)
Definition evolve {T} (w : World T) (m : machines T) (h : list Spawned)
  (lines : list (Channel * string)) : World T :=
  {| process := process w; remote := m;
     history := (history w ++ h)%list;
     console := (console w ++ lines)%list;
     stdin := stdin w; configFile := configFile w;
     existing := existing w; now := now w |}.

Ltac run :=
  cbn [bind ret throw try_catch process_exit await when print spawn rl_question
       getProcess existsSync toISOString_now readConfigFile writeConfigFile evolve
       fst snd negb andb orb process remote history console stdin configFile existing now].


Section Basics.

Context {T : Transport}.
Implicit Types w : World T.

Lemma bind_run {A B} (m : M A) (f : A -> M B) w :
  bind m f w =
  match m w with
  | (Returned a, w') => f a w'
  | (Thrown e, w') => (Thrown e, w')
  | (Exited c, w') => (Exited c, w')
  | (Stalled, w') => (Stalled, w')
  end.
Proof. reflexivity. Qed.

Lemma try_catch_run {A} (m : M A) (handler : Error -> M A) w :
  try_catch m handler w =
  match m w with
  | (Thrown e, w') => handler e w'
  | r => r
  end.
Proof. reflexivity. Qed.

Lemma evolve_id w : evolve w (remote w) [] [] = w.
Proof. destruct w; unfold evolve; cbn; now rewrite !app_nil_r. Qed.

Lemma evolve_evolve w m h l m' h' l' :
  evolve (evolve w m h l) m' h' l' = evolve w m' (h ++ h') (l ++ l').
Proof. unfold evolve; cbn; now rewrite !app_assoc. Qed.

Lemma print_run ch line w :
  print ch line w = (Returned tt, evolve w (remote w) [] [(ch, line)]).
Proof. unfold print, evolve; now rewrite app_nil_r. Qed.

Lemma runCommand_exact prog argl (silent : bool) w r m :
  exec T (Build_Cmd prog argl (if silent then Pipe else Inherit)) (remote w) = (r, m) ->
  runCommand prog argl silent w =
  (settle silent r,
   evolve w m [entry (Build_Cmd prog argl (if silent then Pipe else Inherit)) r]
     ((ConsoleLog, LF ++ "💻 Running: " ++ prog ++ " " ++ Js.join " " argl)
      :: shown (if silent then Pipe else Inherit) r)).
Proof.
  intros E. unfold runCommand. run. rewrite bind_run. unfold spawn. cbn [remote].
  rewrite E. run. unfold evolve. cbn [stdio]. now rewrite <- app_assoc.
Qed.

Lemma runCommand_run prog argl (silent : bool) w r m :
  exec T (Build_Cmd prog argl (if silent then Pipe else Inherit)) (remote w) = (r, m) ->
  exists lines,
    runCommand prog argl silent w =
    (settle silent r,
     evolve w m [entry (Build_Cmd prog argl (if silent then Pipe else Inherit)) r] lines).
Proof.
  intros E. rewrite (runCommand_exact _ _ _ _ _ _ E). eexists; reflexivity.
Qed.

Lemma settle_succeeded silent r :
  succeeded r = true ->
  exists out err,
    r = Closed (Some 0%Z) out err /\
    settle silent r =
    Returned {| stdout := if silent then out else ""; stderr := if silent then err else "";
                exitCode := 0 |}.
Proof.
  destruct r as [[[|c|c]|] out err|e]; cbn; try discriminate.
  intros _. now exists out, err.
Qed.

Lemma settle_failed silent r :
  succeeded r = false -> exists e, settle silent r = Thrown e.
Proof.
  destruct r as [[[|c|c]|] out err|e]; cbn; try discriminate; intros _; eexists; reflexivity.
Qed.

End Basics.

Ltac call_runCommand E :=
  rewrite bind_run;
  match goal with
  | |- context [runCommand ?p ?a ?s ?W] =>
      let lines := fresh "lines" in
      let R := fresh "R" in
      destruct (runCommand_run p a s W _ _ E) as [lines R]; rewrite R; clear R
  end.

Ltac find_line :=
  repeat first [assumption | apply in_eq | apply in_or_app; left; assumption
               | apply in_cons | apply in_or_app; right].

Ltac tidy := unfold evolve, print, ret; run; rewrite <- ?app_assoc; cbn [app].

Section Runs.

Context {T : Transport}.
Implicit Types w : World T.

Lemma testConnection_run cfg w r m :
  exec T (connection_test (process w) cfg) (remote w) = (r, m) ->
  exists lines,
    testConnection cfg w =
    (Returned (succeeded r), evolve w m [entry (connection_test (process w) cfg) r] lines).
Proof.
  intros E. unfold testConnection. run. rewrite try_catch_run. run.
  call_runCommand E.
  destruct (succeeded r) eqn:S.
  - destruct (settle_succeeded true r S) as (out & err & -> & ->). run.
    tidy. eexists; reflexivity.
  - destruct (settle_failed true r S) as (e & ->). run.
    tidy. eexists; reflexivity.
Qed.

Lemma deployFiles_run cfg dry w r m :
  exec T (rsync (process w) cfg dry) (remote w) = (r, m) ->
  exists lines,
    deployFiles cfg dry w =
    (outcome_map (fun _ => true) (settle false r),
     evolve w m [entry (rsync (process w) cfg dry) r] lines).
Proof.
  intros E. unfold deployFiles. run. rewrite try_catch_run.
  call_runCommand E.
  destruct (succeeded r) eqn:S.
  - destruct (settle_succeeded false r S) as (out & err & -> & ->). run.
    tidy. eexists; reflexivity.
  - destruct (settle_failed false r S) as (e & ->). run.
    tidy. eexists; reflexivity.
Qed.

(** The removal loop of [cleanOldBackups]. *)
Lemma removal_loop_run cfg key toDelete : forall w,
  key = expandHome (process w) (keyPath cfg) ->
  exists o m h lines,
    for_of toDelete
      (fun backup =>
         runCommand "ssh" (ssh_args key cfg (sh_remove cfg backup)) true ;;
         print ConsoleLog ("   Deleted: " ++ backup)) w
    = (o, evolve w m h lines)
    /\ Forall (fun x => cleanup_command (process w) cfg (cmd x)) h
    /\ ((o = Returned tt /\ all_succeeded h) \/ exists e, o = Thrown e).
Proof.
  induction toDelete as [|b rest IH]; intros w ->.
  - exists (Returned tt), (remote w), [], []. cbn [for_of]. run.
    rewrite evolve_id. repeat split; [constructor | left; split; [reflexivity | constructor]].
  - cbn [for_of].
    destruct (exec T (ssh (process w) cfg (sh_remove cfg b) Pipe) (remote w)) as [r m] eqn:E.
    rewrite bind_run. call_runCommand E.
    destruct (succeeded r) eqn:S.
    + destruct (settle_succeeded true r S) as (out & err & -> & ->). run.
      match goal with |- context [for_of rest ?f ?W] =>
        destruct (IH W eq_refl) as (o & m' & h & lines' & -> & Hc & Ho) end.
      tidy. exists o, m'. eexists. eexists. split; [reflexivity|]. split.
      * constructor; [right; now exists b | exact Hc].
      * destruct Ho as [[-> Hs] | [e ->]]; [left | right; now exists e].
        split; [reflexivity | constructor; [reflexivity | exact Hs]].
    + destruct (settle_failed true r S) as (e & ->). run.
      exists (Thrown e), m. eexists. eexists. split; [reflexivity|]. split.
      * constructor; [right; now exists b | constructor].
      * right; now exists e.
Qed.


Lemma cleanOldBackups_run cfg w :
  exists m h lines,
    cleanOldBackups cfg w = (Returned tt, evolve w m h lines)
    /\ Forall (fun x => cleanup_command (process w) cfg (cmd x)) h
    /\ (all_succeeded h \/
        exists msg, In (ConsoleWarn, "⚠️  Could not clean old backups: " ++ msg) lines).
Proof.
  unfold cleanOldBackups. rewrite try_catch_run. run.
  destruct (exec T (ssh (process w) cfg (sh_list cfg) Pipe) (remote w)) as [r m] eqn:E.
  call_runCommand E.
  destruct (succeeded r) eqn:S.
  - destruct (settle_succeeded true r S) as (out & err & -> & ->). run.
    destruct (Z.of_nat _ >? maxBackups cfg)%Z; run.
    + match goal with |- context [for_of ?l ?f ?W] =>
        destruct (removal_loop_run cfg _ l W eq_refl)
          as (o & m' & h & lines' & R & Hc & Ho) end.
      cbn [process] in R, Hc. rewrite R; clear R.
      destruct Ho as [[-> Hs] | [e ->]]; run; tidy.
      * do 3 eexists. split; [reflexivity|]. split.
        -- constructor; [now left | exact Hc].
        -- left. constructor; [reflexivity | exact Hs].
      * do 3 eexists. split; [reflexivity|]. split.
        -- constructor; [now left | exact Hc].
        -- right. exists (message e). find_line.
    + tidy. do 3 eexists. split; [reflexivity|]. split.
      * constructor; [now left | constructor].
      * left. constructor; [reflexivity | constructor].
  - destruct (settle_failed true r S) as (e & ->). run. tidy.
    do 3 eexists. split; [reflexivity|]. split.
    + constructor; [now left | constructor].
    + right. exists (message e). find_line.
Qed.


Lemma createBackup_run cfg w r1 m1 r2 m2 :
  let p := process w in
  let name := backupNameAt (now w) in
  let mkdir := ssh p cfg (sh_mkdir cfg) Pipe in
  let copy := ssh p cfg (sh_copy cfg name) Inherit in
  exec T mkdir (remote w) = (r1, m1) ->
  exec T copy m1 = (r2, m2) ->
  (succeeded r1 = false ->
   exists e lines,
     createBackup cfg w = (Thrown e, evolve w m1 [entry mkdir r1] lines))
  /\ (succeeded r1 = true -> succeeded r2 = false ->
      exists e lines,
        createBackup cfg w = (Thrown e, evolve w m2 [entry mkdir r1; entry copy r2] lines))
  /\ (succeeded r1 = true -> succeeded r2 = true ->
      exists m3 h lines,
        createBackup cfg w =
        (Returned name, evolve w m3 ([entry mkdir r1; entry copy r2] ++ h) lines)
        /\ Forall (fun x => cleanup_command p cfg (cmd x)) h
        /\ (all_succeeded h \/
            exists msg,
              In (ConsoleWarn, "⚠️  Could not clean old backups: " ++ msg) lines)).
Proof.
  intros p name mkdir copy E1 E2. unfold createBackup. run. rewrite try_catch_run. run.
  call_runCommand E1. repeat split.
  - intros S1. destruct (settle_failed true r1 S1) as (e & ->). run. tidy.
    do 2 eexists. reflexivity.
  - intros S1 S2. destruct (settle_succeeded true r1 S1) as (out & err & -> & ->). run.
    call_runCommand E2.
    destruct (settle_failed false r2 S2) as (e & ->). run. tidy.
    do 2 eexists. reflexivity.
  - intros S1 S2. destruct (settle_succeeded true r1 S1) as (out & err & -> & ->). run.
    call_runCommand E2.
    destruct (settle_succeeded false r2 S2) as (out2 & err2 & -> & ->). run.
    rewrite bind_run.
    match goal with |- context [cleanOldBackups cfg ?W] =>
      destruct (cleanOldBackups_run cfg W) as (m3 & h & lines3 & R & Hc & Hw) end.
    cbn [process] in Hc. rewrite R; clear R. run. tidy.
    exists m3, h. eexists. split; [reflexivity|]. split; [exact Hc|].
    destruct Hw as [Hs | [msg Hm]]; [now left | right; exists msg; find_line].
Qed.

Lemma includes_In xs x : Js.includes xs x = true <-> In x xs.
Proof.
  unfold Js.includes. rewrite existsb_exists. split.
  - intros (y & Hy & E). apply String.eqb_eq in E. now subst.
  - intros H. exists x. split; [exact H | apply String.eqb_refl].
Qed.





Lemma loadConfig_frame w w' cfg :
  process w' = process w -> configFile w' = configFile w ->
  fst (loadConfig w) = Returned cfg ->
  loadConfig w' = (Returned cfg, w').
Proof.
  unfold loadConfig. run. intros -> ->.
  destruct (configFile w); run; unfold ret, throw; cbn [fst]; intros [= <-] || intros [=];
    reflexivity.
Qed.

Ltac call_loadConfig H :=
  rewrite bind_run;
  match goal with
  | |- context [loadConfig ?W] =>
      match type of H with
      | fst (loadConfig ?w0) = _ => rewrite (loadConfig_frame w0 W _ eq_refl eq_refl H)
      end
  end.

Ltac call_testConnection E :=
  rewrite bind_run;
  match goal with
  | |- context [testConnection ?c ?W] =>
      let lines := fresh "lines" in
      let R := fresh "R" in
      destruct (testConnection_run c W _ _ E) as [lines R]; rewrite R; clear R
  end.

Lemma deploy_unconfigured options w cfg :
  fst (loadConfig w) = Returned cfg ->
  Js.truthy (host cfg) = false ->
  exists lines, deploy options w = (Returned false, evolve w (remote w) [] lines).
Proof.
  intros L H. unfold deploy. run. call_loadConfig L. rewrite H. cbn [negb]. run.
  tidy. rewrite app_nil_r. eexists; reflexivity.
Qed.

Lemma deploy_no_source options w cfg :
  fst (loadConfig w) = Returned cfg ->
  Js.includes (existing w) (localPath cfg) = false ->
  exists lines, deploy options w = (Returned false, evolve w (remote w) [] lines).
Proof.
  intros L X. destruct (Js.truthy (host cfg)) eqn:H;
    [|exact (deploy_unconfigured options w cfg L H)].
  unfold deploy. run. call_loadConfig L. rewrite H. cbn [negb]. run.
  rewrite X. cbn [negb]. run. tidy. rewrite app_nil_r. eexists; reflexivity.
Qed.

Lemma deploy_unreachable options w cfg r m :
  fst (loadConfig w) = Returned cfg ->
  Js.truthy (host cfg) = true ->
  Js.includes (existing w) (localPath cfg) = true ->
  exec T (connection_test (process w) cfg) (remote w) = (r, m) ->
  succeeded r = false ->
  exists lines,
    deploy options w =
    (Returned false, evolve w m [entry (connection_test (process w) cfg) r] lines).
Proof.
  intros L H X E S. unfold deploy. run. call_loadConfig L. rewrite H. cbn [negb]. run.
  rewrite X. cbn [negb]. call_testConnection E. rewrite S. cbn [negb]. run. tidy.
  eexists; reflexivity.
Qed.


Lemma deploy_dry w cfg r0 m0 r m :
  fst (loadConfig w) = Returned cfg ->
  Js.truthy (host cfg) = true ->
  Js.includes (existing w) (localPath cfg) = true ->
  exec T (connection_test (process w) cfg) (remote w) = (r0, m0) ->
  succeeded r0 = true ->
  exec T (rsync (process w) cfg true) m0 = (r, m) ->
  exists lines,
    deploy {| dryRun := true |} w =
    (Returned (succeeded r),
     evolve w m [entry (connection_test (process w) cfg) r0;
                 entry (rsync (process w) cfg true) r] lines).
Proof.
  intros L H X E0 S0 E. unfold deploy. run. call_loadConfig L. rewrite H. cbn [negb]. run.
  rewrite X. cbn [negb]. call_testConnection E0. rewrite S0. cbn [negb dryRun].
  rewrite andb_false_r. run. rewrite try_catch_run. run. rewrite bind_run.
  match goal with |- context [deployFiles cfg true ?W] =>
    destruct (deployFiles_run cfg true W r m E) as [lines' R]; rewrite R; clear R end.
  destruct (succeeded r) eqn:S.
  - destruct (settle_succeeded false r S) as (o' & e' & -> & ->). cbn [outcome_map]. run.
    tidy. eexists; reflexivity.
  - destruct (settle_failed false r S) as (e' & ->). cbn [outcome_map]. run.
    tidy. eexists; reflexivity.
Qed.

Lemma deploy_declined w cfg r0 m0 answer rest :
  fst (loadConfig w) = Returned cfg ->
  Js.truthy (host cfg) = true ->
  Js.includes (existing w) (localPath cfg) = true ->
  exec T (connection_test (process w) cfg) (remote w) = (r0, m0) ->
  succeeded r0 = true ->
  requireConfirmation cfg = true ->
  stdin w = answer :: rest ->
  (Js.toLowerCase answer =? "y") = false ->
  let res := deploy {| dryRun := false |} w in
  fst res = Returned false
  /\ history (snd res) = (history w ++ [entry (connection_test (process w) cfg) r0])%list
  /\ remote (snd res) = m0
  /\ stdin (snd res) = rest
  /\ In (ConsoleLog, "❌ Deployment cancelled") (console (snd res)).
Proof.
  intros L H X E0 S0 Q I N res. subst res. unfold deploy. run. call_loadConfig L.
  rewrite H. cbn [negb]. run.
  rewrite X. cbn [negb]. call_testConnection E0. rewrite S0, Q. cbn [negb dryRun andb].
  unfold confirm. run. rewrite I. run. rewrite N. cbn [negb]. run. tidy.
  repeat split. find_line.
Qed.

Lemma deploy_real w cfg r0 m0 r1 m1 r2 m2 :
  let p := process w in
  let test := connection_test p cfg in
  let mkdir := ssh p cfg (sh_mkdir cfg) Pipe in
  let copy := ssh p cfg (sh_copy cfg (backupNameAt (now w))) Inherit in
  let sync := rsync p cfg false in
  let res := deploy {| dryRun := false |} w in
  fst (loadConfig w) = Returned cfg ->
  Js.truthy (host cfg) = true ->
  Js.includes (existing w) (localPath cfg) = true ->
  exec T test (remote w) = (r0, m0) ->
  succeeded r0 = true ->
  gate_open cfg w ->
  exec T mkdir m0 = (r1, m1) ->
  exec T copy m1 = (r2, m2) ->
  (succeeded r1 = false ->
   fst res = Returned false
   /\ history (snd res) = (history w ++ [entry test r0; entry mkdir r1])%list)
  /\ (succeeded r1 = true -> succeeded r2 = false ->
      fst res = Returned false
      /\ history (snd res) = (history w ++ [entry test r0; entry mkdir r1; entry copy r2])%list)
  /\ (succeeded r1 = true -> succeeded r2 = true ->
      exists W m3 h lines r4 m4,
        process W = p /\ now W = now w /\ remote W = m0
        /\ createBackup cfg W =
           (Returned (backupNameAt (now w)),
            evolve W m3 ([entry mkdir r1; entry copy r2] ++ h) lines)
        /\ exec T sync m3 = (r4, m4)
        /\ Forall (fun x => cleanup_command p cfg (cmd x)) h
        /\ fst res = Returned (succeeded r4)
        /\ history (snd res) =
           (history w ++ [entry test r0; entry mkdir r1; entry copy r2] ++ h
            ++ [entry sync r4])%list
        /\ remote (snd res) = m4).
Proof.
  intros p test mkdir copy sync res L H X E0 S0 G E1 E2. subst res.
  unfold deploy. run. call_loadConfig L. rewrite H. cbn [negb]. run.
  rewrite X. cbn [negb]. call_testConnection E0. rewrite S0. cbn [negb dryRun].
  rewrite andb_true_r.
  assert (Body : forall W : World T,
    process W = p -> now W = now w -> remote W = m0 ->
    history W = (history w ++ [entry test r0])%list ->
    let res :=
      try_catch
        (when true (createBackup cfg ;; ret tt) ;;
         deployFiles cfg false ;;
         when true
           (print ConsoleLog (LF ++ "✅ Deployment Complete!") ;;
            print ConsoleLog "=======================" ;;
            print ConsoleLog (LF ++ "🌐 Site should be live at: http://" ++ host cfg) ;;
            print ConsoleLog (LF ++ "💡 Tip: If something went wrong, run: "
                              ++ "node deploy.js --rollback")) ;;
         ret true)
        (fun error =>
         print ConsoleError (LF ++ "❌ Deployment failed: " ++ message error) ;;
         print ConsoleError (LF ++ "🔄 Consider rolling back: "
                             ++ "node deploy.js --rollback") ;;
         ret false) W in
    (succeeded r1 = false ->
     fst res = Returned false
     /\ history (snd res) = (history w ++ [entry test r0; entry mkdir r1])%list)
    /\ (succeeded r1 = true -> succeeded r2 = false ->
        fst res = Returned false
        /\ history (snd res)
           = (history w ++ [entry test r0; entry mkdir r1; entry copy r2])%list)
    /\ (succeeded r1 = true -> succeeded r2 = true ->
        exists m3 h lines r4 m4,
          createBackup cfg W =
          (Returned (backupNameAt (now w)),
           evolve W m3 ([entry mkdir r1; entry copy r2] ++ h) lines)
          /\ exec T sync m3 = (r4, m4)
          /\ Forall (fun x => cleanup_command p cfg (cmd x)) h
          /\ fst res = Returned (succeeded r4)
          /\ history (snd res) =
             (history w ++ [entry test r0; entry mkdir r1; entry copy r2] ++ h
              ++ [entry sync r4])%list
          /\ remote (snd res) = m4)).
  { intros W Wp Wn Wr Wh res. subst res.
    assert (E1' : exec T (ssh (process W) cfg (sh_mkdir cfg) Pipe) (remote W) = (r1, m1))
      by (rewrite Wp, Wr; exact E1).
    assert (E2' : exec T (ssh (process W) cfg (sh_copy cfg (backupNameAt (now W))) Inherit) m1
                  = (r2, m2)) by (rewrite Wp, Wn; exact E2).
    destruct (createBackup_run cfg W r1 m1 r2 m2 E1' E2') as (C1 & C2 & C3).
    rewrite try_catch_run. run. rewrite !bind_run. repeat split.
    - destruct (C1 H0) as (e & l & ->). run. reflexivity.
    - destruct (C1 H0) as (e & l & ->). run. tidy. rewrite Wh, Wp. now rewrite <- app_assoc.
    - destruct (C2 H0 H1) as (e & l & ->). run. reflexivity.
    - destruct (C2 H0 H1) as (e & l & ->). run. tidy. rewrite Wh, Wp, Wn.
      now rewrite <- app_assoc.
    - intros S1 S2. destruct (C3 S1 S2) as (m3 & h & l & R0 & Hc & _).
      assert (R0' := R0). rewrite Wp, Wn in R0'. fold mkdir copy in R0'.
      destruct (exec T sync m3) as [r4 m4] eqn:E4.
      exists m3, h, l, r4, m4. split; [exact R0'|]. rewrite Wp in Hc.
      split; [exact E4|]. split; [exact Hc|].
      rewrite R0; clear R0 R0'. run.
      rewrite !bind_run.
      match goal with |- context [deployFiles cfg false ?W'] =>
        assert (E4' : exec T (rsync (process W') cfg false) (remote W') = (r4, m4))
          by (cbn [evolve process remote]; rewrite Wp; exact E4);
        destruct (deployFiles_run cfg false W' r4 m4 E4') as [l' R]; rewrite R; clear R
      end.
      destruct (succeeded r4) eqn:S4.
      + destruct (settle_succeeded false r4 S4) as (o' & e' & -> & ->). cbn [outcome_map].
        run. tidy. rewrite Wh, Wp, Wn. rewrite <- !app_assoc. cbn [app]. auto.
      + destruct (settle_failed false r4 S4) as (e' & ->). cbn [outcome_map].
        run. tidy. rewrite Wh, Wp, Wn. rewrite <- !app_assoc. cbn [app]. auto. }
  destruct G as [Q | (answer & rest & I & Y)].
  - rewrite Q. run.
    match goal with |- context [try_catch _ _ ?W] =>
      destruct (Body W) as (B1 & B2 & B3); [tidy; reflexivity .. |] end.
    split; [exact B1|]. split; [exact B2|]. intros S1 S2.
    destruct (B3 S1 S2) as (m3 & h & l & r4 & m4 & B).
    eexists. exists m3, h, l, r4, m4. split; [|split; [|split; [|exact B]]]; reflexivity.
  - destruct (requireConfirmation cfg); run.
    + unfold confirm. run. rewrite I. run. rewrite Y. run.
      match goal with |- context [try_catch _ _ ?W] =>
        destruct (Body W) as (B1 & B2 & B3); [tidy; reflexivity .. |] end.
      split; [exact B1|]. split; [exact B2|]. intros S1 S2.
      destruct (B3 S1 S2) as (m3 & h & l & r4 & m4 & B).
      eexists. exists m3, h, l, r4, m4. split; [|split; [|split; [|exact B]]]; reflexivity.
    + match goal with |- context [try_catch _ _ ?W] =>
        destruct (Body W) as (B1 & B2 & B3); [tidy; reflexivity .. |] end.
      split; [exact B1|]. split; [exact B2|]. intros S1 S2.
      destruct (B3 S1 S2) as (m3 & h & l & r4 & m4 & B).
      eexists. exists m3, h, l, r4, m4. split; [|split; [|split; [|exact B]]]; reflexivity.
Qed.

End Runs.
(** ** The remote host: parsing and dispatch *)

Section HostFacts.

Import Host.

Lemma plain_char_not_space c : plain_char c = true -> Js.is_space c = false.
Proof.
  destruct c as [[] [] [] [] [] [] [] []]; vm_compute; congruence.
Qed.

Lemma plain_char_not_blank c x y :
  plain_char c = true -> Js.blank2 c x = false /\ Js.blank3 c x y = false.
Proof.
  destruct c as [[] [] [] [] [] [] [] []]; vm_compute; intros; solve [discriminate | auto].
Qed.

Lemma space_nl c : Ascii.eqb c Js.nl = true -> Js.is_space c = true.
Proof. intros E. apply Ascii.eqb_eq in E. subst. reflexivity. Qed.

Lemma plain_spaceless s : Js.string_forall plain_char s = true -> spaceless s = true.
Proof.
  unfold spaceless. induction s as [|c s IH]; cbn; [reflexivity|].
  rewrite !andb_true_iff. intros [C S]. rewrite (plain_char_not_space c C). auto.
Qed.

(** White space is not removed in front of a plain character. *)
Lemma trimStart_plain c s : plain_char c = true -> Js.trimStart (String c s) = String c s.
Proof.
  intros C. cbn [Js.trimStart]. rewrite (plain_char_not_space c C).
  destruct s as [|x [|y s]]; [reflexivity| |].
  - now rewrite (proj1 (plain_char_not_blank c x x C)).
  - destruct (plain_char_not_blank c x y C) as [-> ->]. reflexivity.
Qed.

Lemma trimStart_space c s : Js.is_space c = true -> Js.trimStart (String c s) = Js.trimStart s.
Proof. intros C. cbn [Js.trimStart]. now rewrite C. Qed.

Lemma trimEnd_plain n t :
  Js.string_forall plain_char n = true -> Js.trimEnd (n ++ t) = n ++ Js.trimEnd t.
Proof.
  induction n as [|c n IH]; cbn [append Js.string_forall]; [reflexivity|].
  rewrite andb_true_iff. intros [C S]. cbn [Js.trimEnd]. unfold Js.all_blank.
  rewrite (trimStart_plain c _ C). now rewrite (IH S).
Qed.

Lemma split_spaceless_app n t :
  spaceless n = true -> Js.split Js.nl (n ++ String Js.nl t) = n :: Js.split Js.nl t.
Proof.
  unfold spaceless. induction n as [|c n IH]; cbn [append Js.split Js.string_forall].
  - intros _. now rewrite Ascii.eqb_refl.
  - rewrite andb_true_iff, negb_true_iff. intros [C S]. rewrite (IH S).
    destruct (Ascii.eqb c Js.nl) eqn:E; [|reflexivity].
    apply space_nl in E. congruence.
Qed.

Lemma split_spaceless n :
  spaceless n = true -> Js.split Js.nl n = [n].
Proof.
  unfold spaceless. induction n as [|c n IH]; cbn [Js.split Js.string_forall]; [reflexivity|].
  rewrite andb_true_iff, negb_true_iff. intros [C S]. rewrite (IH S).
  destruct (Ascii.eqb c Js.nl) eqn:E; [|reflexivity].
  apply space_nl in E. congruence.
Qed.

Lemma append_empty_r s : s ++ "" = s.
Proof. induction s; cbn; congruence. Qed.

Lemma plain_name_parts n :
  plain_name n = true ->
  Js.string_forall plain_char n = true
  /\ exists c s, n = String c s /\ plain_char c = true.
Proof.
  unfold plain_name, Js.truthy. intros P. apply andb_true_iff in P. destruct P as [N P].
  split; [exact P|]. destruct n as [|c s]; [discriminate|].
  cbn in P. apply andb_true_iff in P. exists c, s. now split.
Qed.

(** The listing is parsed back into the names it was printed from. *)
Lemma trimmed_listing names :
  Forall (fun n => plain_name n = true) names ->
  Js.trimEnd (Host.listing names) = Js.join LF names
  /\ Js.split Js.nl (Js.join LF names) = match names with [] => [""] | _ => names end.
Proof.
  induction 1 as [|n rest P Q IH]; [split; reflexivity|].
  destruct (plain_name_parts n P) as [Pn _]. destruct IH as [IH1 IH2].
  cbn [Host.listing fold_right]. rewrite (trimEnd_plain _ _ Pn).
  fold (Host.listing rest).
  destruct rest as [|n' rest'].
  - cbn. rewrite append_empty_r. split; [reflexivity|].
    now apply split_spaceless, plain_spaceless.
  - assert (J : exists c s, Js.join LF (n' :: rest') = String c s).
    { inversion Q as [|? ? P' _]. destruct (plain_name_parts n' P') as (_ & c & s & -> & _).
      destruct rest'; cbn; eauto. }
    assert (B : Js.all_blank (LF ++ Host.listing (n' :: rest')) = false).
    { inversion Q as [|? ? P' _]. destruct (plain_name_parts n' P') as (_ & c & s & -> & C).
      unfold Js.all_blank. change (LF ++ ?t) with (String Js.nl t).
      cbn [Host.listing fold_right append].
      rewrite (trimStart_space Js.nl _ eq_refl). now rewrite (trimStart_plain c _ C). }
    change (LF ++ ?t) with (String Js.nl t) in B |- *.
    cbn [Js.trimEnd]. rewrite B, IH1.
    destruct J as (c & s & J).
    change (Js.join LF (n :: n' :: rest')) with (n ++ LF ++ Js.join LF (n' :: rest')).
    change (LF ++ ?t) with (String Js.nl t).
    split; [reflexivity|].
    rewrite (split_spaceless_app _ _ (plain_spaceless _ Pn)). now rewrite IH2.
Qed.

Lemma parse_listing_names names :
  Forall (fun n => plain_name n = true) names ->
  parse_listing (Host.listing names) = names.
Proof.
  intros P. unfold parse_listing, Js.trim.
  assert (S : Js.trimStart (Host.listing names) = Host.listing names).
  { destruct P as [|n rest P _]; [reflexivity|].
    destruct (plain_name_parts n P) as (_ & c & s & -> & C).
    cbn [Host.listing fold_right append]. now apply trimStart_plain. }
  rewrite S. destruct (trimmed_listing names P) as [-> ->].
  destruct P as [|n rest P Q]; [reflexivity|].
  apply forallb_filter_id. apply forallb_forall. intros x [<- | I].
  - unfold plain_name in P. now apply andb_true_iff in P.
  - rewrite Forall_forall in Q. specialize (Q x I). unfold plain_name in Q.
    now apply andb_true_iff in Q.
Qed.

Lemma eqb_append_l p a b : (p ++ a =? p ++ b) = (a =? b).
Proof.
  induction p as [|c p IH]; cbn; [reflexivity|]. now rewrite Ascii.eqb_refl.
Qed.



Lemma find_same {A} (f g : A -> bool) xs : (forall x, f x = g x) -> find f xs = find g xs.
Proof. intros F. induction xs as [|x xs IH]; cbn; [reflexivity|]. now rewrite F, IH. Qed.

Lemma append_assoc (a b c : string) : (a ++ b) ++ c = a ++ b ++ c.
Proof. induction a as [|x a IH]; cbn; congruence. Qed.

Lemma find_named {B} (name : string) (entries : list (string * B)) :
  In name (map fst entries) ->
  exists content, find (fun entry => name =? fst entry) entries = Some (name, content).
Proof.
  induction entries as [|[n c] rest IH]; cbn; [contradiction|].
  destruct (String.eqb_spec name n) as [->|N].
  - intros _. now exists c.
  - intros [E | I]; [congruence | exact (IH I)].
Qed.

Lemma with_outages_id st : outages st = [] -> with_outages (tl (outages st)) st = st.
Proof. destruct st; cbn. now intros ->. Qed.

Lemma run_reliable c st :
  outages st = [] ->
  run c st =
  if command c =? "ssh" then shell (last (args c) "") st
  else if command c =? "rsync" then sync (args c) st
  else (SpawnError {| message := "spawn " ++ command c ++ " ENOENT" |}, st).
Proof.
  intros O. unfold run. rewrite (with_outages_id st O). now rewrite O.
Qed.

Lemma run_test p cfg st :
  outages st = [] ->
  run (connection_test p cfg) st = (ok ("Connection successful" ++ LF), st).
Proof.
  intros O. rewrite (run_reliable _ _ O). cbn [connection_test ssh command args ssh_args last].
  cbn [String.eqb Ascii.eqb Bool.eqb]. unfold shell. now rewrite String.eqb_refl.
Qed.

Lemma run_list p cfg st :
  serves st cfg -> outages st = [] ->
  run (ssh p cfg (sh_list cfg) Pipe) st = (ok (listing (names st)), st).
Proof.
  intros [_ B] O. rewrite (run_reliable _ _ O). cbn [ssh command args ssh_args last].
  cbn [String.eqb Ascii.eqb Bool.eqb]. unfold shell, sh_list. rewrite B.
  cbn [append String.eqb Ascii.eqb Bool.eqb]. now rewrite String.eqb_refl.
Qed.


Lemma run_remove p cfg st name :
  serves st cfg -> outages st = [] -> In name (names st) ->
  run (ssh p cfg (sh_remove cfg name) Pipe) st =
  (ok "", with_backups (filter (is_not name) (backups st)) st).
Proof.
  intros [_ B] O I. rewrite (run_reliable _ _ O). cbn [ssh command args ssh_args last].
  cbn [String.eqb Ascii.eqb Bool.eqb]. unfold shell, sh_remove, rm_backup. rewrite B.
  cbn [append String.eqb Ascii.eqb Bool.eqb].
  destruct (find_named name (backups st) I) as [content F].
  erewrite find_same; [rewrite F; reflexivity|].
  intros entry. cbn beta. now rewrite !eqb_append_l.
Qed.






Lemma truthy_append_r a b : Js.truthy b = true -> Js.truthy (a ++ b) = true.
Proof. destruct a; cbn; [auto | reflexivity]. Qed.

Lemma filter_exclude_pairs patterns :
  filter Js.truthy (flat_map (fun e => ["--exclude"; e]) patterns)
  = flat_map exclude_pair patterns.
Proof.
  induction patterns as [|e rest IH]; [reflexivity|].
  cbn [flat_map app filter]. change (Js.truthy "--exclude") with true. cbv iota.
  unfold exclude_pair at 1. destruct (Js.truthy e); cbn [app]; now rewrite IH.
Qed.

Lemma exclude_pairs_whole patterns :
  Forall (fun e => Js.truthy e = true) patterns ->
  flat_map exclude_pair patterns = flat_map (fun e => ["--exclude"; e]) patterns.
Proof.
  induction 1 as [|e rest E _ IH]; [reflexivity|].
  cbn [flat_map]. unfold exclude_pair at 1. now rewrite E, IH.
Qed.

Lemma reads_excludes patterns tail :
  rsync_reads (flat_map (fun e => ["--exclude"; e]) patterns ++ tail)
  = match rsync_reads tail with
    | Some (options, paths) =>
        Some ((repeat "--exclude" (List.length patterns) ++ options)%list, paths)
    | None => None
    end.
Proof.
  induction patterns as [|e rest IH].
  - cbn [flat_map app List.length repeat]. now destruct (rsync_reads tail) as [[o q]|].
  - cbn [flat_map app List.length repeat rsync_reads].
    change ("--exclude" =? "--exclude") with true. cbn [orb].
    rewrite IH. now destruct (rsync_reads tail) as [[o q]|].
Qed.

Lemma prefix_hyphen c a :
  String.prefix "-" (String c a) = false <-> c <> "-"%char.
Proof.
  cbn [String.prefix]. destruct (ascii_dec "-" c) as [<-|N].
  - split; [destruct a; discriminate | congruence].
  - split; [congruence | reflexivity].
Qed.

Lemma reads_path a :
  String.prefix "-" a = false ->
  ((a =? "--exclude") || (a =? "-e")) = false.
Proof.
  destruct a as [|c a]; [reflexivity|]. intros P. apply prefix_hyphen in P.
  cbn [String.eqb]. destruct (Ascii.eqb_spec c "-"%char) as [->|_]; [congruence | reflexivity].
Qed.

Lemma prefix_append_l a b :
  String.prefix "-" a = false -> (exists d b', b = String d b' /\ d <> "-"%char) ->
  String.prefix "-" (a ++ b) = false.
Proof.
  intros P (d & b' & -> & N). destruct a as [|c a]; cbn [append].
  - now apply prefix_hyphen.
  - apply prefix_hyphen. now apply prefix_hyphen in P.
Qed.

Lemma reads_option a rest :
  String.prefix "-" a = true -> ((a =? "--exclude") || (a =? "-e")) = false ->
  rsync_reads (a :: rest)
  = match rsync_reads rest with
    | Some (options, paths) => Some (a :: options, paths)
    | None => None
    end.
Proof.
  intros P E. cbn [rsync_reads]. rewrite E.
  destruct (rsync_reads rest) as [[o q]|]; [now rewrite P | reflexivity].
Qed.

Lemma reads_last_path a :
  String.prefix "-" a = false -> forall rest,
  rsync_reads (a :: rest)
  = match rsync_reads rest with
    | Some (options, paths) => Some (options, a :: paths)
    | None => None
    end.
Proof.
  intros P rest. cbn [rsync_reads]. rewrite (reads_path a P).
  destruct (rsync_reads rest) as [[o q]|]; [now rewrite P | reflexivity].
Qed.

Lemma rsync_args_whole key c dry :
  Forall (fun e => Js.truthy e = true) (exclude c) ->
  rsync_args key c dry
  = ("-avz" :: "--delete"
     :: (if dry then ["--dry-run"] else [])
     ++ flat_map (fun e => ["--exclude"; e]) (exclude c)
     ++ ["-e"; ("ssh -i " ++ key ++ " -p " ++ port c)%string; (localPath c ++ "/")%string;
         (user c ++ "@" ++ host c ++ ":" ++ remotePath c ++ "/")%string])%list.
Proof.
  intros E. unfold rsync_args. cbv zeta.
  rewrite !filter_app, filter_exclude_pairs, (exclude_pairs_whole _ E).
  assert (S : Js.truthy (localPath c ++ "/") = true) by now apply truthy_append_r.
  assert (G : Js.truthy (user c ++ "@" ++ host c ++ ":" ++ remotePath c ++ "/") = true).
  { rewrite <- !append_assoc. now apply truthy_append_r. }
  cbn [filter]. rewrite S, G.
  change (Js.truthy "-e") with true. change (Js.truthy "-avz") with true.
  change (Js.truthy "--delete") with true.
  change (Js.truthy ("ssh -i " ++ key ++ " -p " ++ port c)) with true.
  destruct dry; reflexivity.
Qed.

Lemma no_simulation k :
  Js.includes (repeat "--exclude" k ++ ["-e"])%list "--dry-run" = false.
Proof. induction k as [|k IH]; [reflexivity | exact IH]. Qed.

(** The arguments built from a sendable configuration, as rsync reads them. *)
Lemma reads_rsync_args key c dry :
  sendable c ->
  exists options source target,
    rsync_reads (rsync_args key c dry) = Some (options, [source; target])
    /\ simulates options = dry.
Proof.
  intros (E & L & U). rewrite (rsync_args_whole key c dry E).
  assert (Ps : String.prefix "-" (localPath c ++ "/") = false).
  { apply prefix_append_l; [exact L|]. exists "/"%char, "". split; [reflexivity | discriminate]. }
  assert (Pt : String.prefix "-" (user c ++ "@" ++ host c ++ ":" ++ remotePath c ++ "/")
               = false).
  { apply prefix_append_l; [exact U|]. eexists "@"%char, _. split; [reflexivity | discriminate]. }
  assert (T4 : rsync_reads ["-e"; "ssh -i " ++ key ++ " -p " ++ port c;
                            localPath c ++ "/";
                            user c ++ "@" ++ host c ++ ":" ++ remotePath c ++ "/"]
               = Some (["-e"], [localPath c ++ "/";
                                user c ++ "@" ++ host c ++ ":" ++ remotePath c ++ "/"])).
  { cbn [rsync_reads]. change (("-e" =? "--exclude") || ("-e" =? "-e")) with true.
    cbv iota. rewrite (reads_path _ Ps), (reads_path _ Pt), Ps, Pt. reflexivity. }
  rewrite (reads_option "-avz" _ eq_refl eq_refl).
  rewrite (reads_option "--delete" _ eq_refl eq_refl).
  destruct dry; cbn [app].
  - rewrite (reads_option "--dry-run" _ eq_refl eq_refl), reads_excludes, T4.
    do 3 eexists. split; reflexivity.
  - rewrite reads_excludes, T4. do 3 eexists. split; [reflexivity|].
    unfold simulates. change (Js.includes ("-avz" :: "--delete" :: ?l) "--dry-run")
      with (Js.includes l "--dry-run").
    apply no_simulation.
Qed.


Lemma run_sync_dry p cfg st :
  outages st = [] -> sendable cfg ->
  run (rsync p cfg true) st = (ok "", st).
Proof.
  intros O Sd. rewrite (run_reliable _ _ O). cbn [rsync command args].
  cbn [String.eqb Ascii.eqb Bool.eqb]. unfold sync.
  destruct (reads_rsync_args (expandHome p (keyPath cfg)) cfg true Sd)
    as (o & a & b & -> & ->). reflexivity.
Qed.

(** A dry run changes nothing on the host, whatever the exclude patterns. *)
Lemma run_dry_keeps_host p cfg st :
  outages st = [] -> snd (run (rsync p cfg true) st) = st.
Proof.
  intros O. rewrite (run_reliable _ _ O). cbn [rsync command args].
  cbn [String.eqb Ascii.eqb Bool.eqb]. unfold sync, rsync_args. cbv zeta.
  rewrite filter_app. cbn [filter]. change (Js.truthy "-avz") with true.
  change (Js.truthy "--delete") with true. change (Js.truthy "--dry-run") with true.
  cbv iota. cbn [app].
  rewrite (reads_option "-avz" _ eq_refl eq_refl).
  rewrite (reads_option "--delete" _ eq_refl eq_refl).
  rewrite (reads_option "--dry-run" _ eq_refl eq_refl).
  destruct (rsync_reads _) as [[o [|a [|b [|c q]]]]|]; reflexivity.
Qed.



End HostFacts.

(** ** Retention on the remote host *)

Section Retention.
Import Host.
Implicit Types w : World Host.transport.

Lemma filter_filter {A} (f g : A -> bool) xs :
  filter f (filter g xs) = filter (fun x => g x && f x) xs.
Proof.
  induction xs as [|x xs IH]; cbn; [reflexivity|].
  destruct (g x); cbn; [destruct (f x)|]; now rewrite IH.
Qed.

Lemma names_removed name entries :
  map fst (filter (is_not name) entries)
  = filter (fun n => negb (n =? name)) (map fst entries).
Proof.
  induction entries as [|[n c] rest IH]; cbn; [reflexivity|].
  unfold is_not at 1. cbn [fst]. destruct (n =? name); cbn; now rewrite IH.
Qed.

Lemma kept_cons b rest entries :
  filter (kept rest) (filter (is_not b) entries) = filter (kept (b :: rest)) entries.
Proof.
  rewrite filter_filter. apply filter_ext. intros [n c].
  unfold kept, is_not, Js.includes. cbn [fst existsb]. now rewrite negb_orb.
Qed.

Lemma kept_none entries : filter (kept []) entries = entries.
Proof. induction entries as [|e rest IH]; cbn; congruence. Qed.

Lemma kept_nothing deleted entries :
  incl (map fst entries) deleted -> filter (kept deleted) entries = [].
Proof.
  induction entries as [|e rest IH]; intros I; [reflexivity|]. cbn [filter].
  replace (kept deleted e) with false.
  - apply IH. intros x Ix. apply I. now right.
  - symmetry. unfold kept. apply negb_false_iff, includes_In, I. now left.
Qed.

Lemma kept_newest n : forall entries,
  NoDup (map fst entries) ->
  filter (kept (skipn n (map fst entries))) entries = firstn n entries.
Proof.
  induction n as [|n IH]; intros entries D.
  - cbn [skipn firstn]. apply kept_nothing, incl_refl.
  - destruct entries as [|e rest]; [reflexivity|]. inversion D; subst.
    cbn [map skipn firstn filter].
    replace (kept (skipn n (map fst rest)) e) with true; [now rewrite (IH rest H2)|].
    symmetry. unfold kept. apply negb_true_iff.
    destruct (Js.includes (skipn n (map fst rest)) (fst e)) eqn:I; [|reflexivity].
    apply includes_In in I. exfalso. apply H1.
    rewrite <- (firstn_skipn n (map fst rest)). apply in_or_app. now right.
Qed.

Lemma removal_loop_host cfg key toDelete : forall w,
  key = expandHome (process w) (keyPath cfg) ->
  serves (remote w) cfg -> outages (remote w) = [] ->
  NoDup toDelete -> incl toDelete (names (remote w)) ->
  exists h lines,
    for_of toDelete
      (fun backup =>
         runCommand "ssh" (ssh_args key cfg (sh_remove cfg backup)) true ;;
         print ConsoleLog ("   Deleted: " ++ backup)) w
    = (Returned tt,
       evolve w (with_backups (filter (kept toDelete) (backups (remote w))) (remote w))
              h lines)
    /\ map cmd h = map (fun b => ssh (process w) cfg (sh_remove cfg b) Pipe) toDelete
    /\ all_succeeded h.
Proof.
  induction toDelete as [|b rest IH]; intros w -> S O D I.
  - exists [], []. cbn [for_of]. unfold ret. rewrite kept_none.
    replace (with_backups (backups (remote w)) (remote w)) with (remote w)
      by (destruct (remote w); reflexivity).
    rewrite evolve_id. repeat split. constructor.
  - cbn [for_of]. inversion D as [|? ? Nb Dr]; subst.
    assert (Ib : In b (names (remote w))) by (apply I; now left).
    pose proof (run_remove (process w) cfg (remote w) b S O Ib) as E.
    rewrite bind_run. call_runCommand E. cbn [ok settle]. run.
    match goal with |- context [for_of rest ?f ?W] =>
      destruct (IH W eq_refl) as (h & lines' & R & Hc & Hs) end.
    + exact S.
    + exact O.
    + exact Dr.
    + intros x Ix. cbn [remote evolve]. unfold names. cbn [backups with_backups].
      rewrite names_removed. apply filter_In. split; [apply I; now right|].
      apply negb_true_iff. apply String.eqb_neq. intros ->. contradiction.
    + cbn [process remote evolve] in R, Hc. rewrite R; clear R. tidy.
      cbn [backups with_backups]. rewrite kept_cons.
      do 2 eexists. split; [reflexivity|]. split.
      * cbn [map cmd entry]. now rewrite Hc.
      * constructor; [reflexivity | exact Hs].
Qed.





Lemma iso_char_plain c :
  iso_char c = true ->
  plain_char (if Ascii.eqb c ":"%char || Ascii.eqb c "."%char then "-"%char else c) = true.
Proof.
  destruct c as [[] [] [] [] [] [] [] []]; vm_compute; congruence.
Qed.

Lemma backupName_plain iso : iso_timestamp iso = true -> plain_name (backupNameAt iso) = true.
Proof.
  intros I. unfold plain_name, backupNameAt. apply andb_true_iff. split; [reflexivity|].
  cbn [append Js.string_forall]. 
  change (plain_char "b" && (plain_char "a" && (plain_char "c" && (plain_char "k"
          && (plain_char "u" && (plain_char "p" && (plain_char "-"
          && Js.string_forall plain_char (Js.replace_colon_dot iso))))))) = true).
  cbn [andb]. 
  replace (plain_char "b") with true by reflexivity.
  replace (plain_char "a") with true by reflexivity.
  replace (plain_char "c") with true by reflexivity.
  replace (plain_char "k") with true by reflexivity.
  replace (plain_char "u") with true by reflexivity.
  replace (plain_char "p") with true by reflexivity.
  replace (plain_char "-") with true by reflexivity. cbn [andb].
  unfold iso_timestamp in I. induction iso as [|c s IH]; [reflexivity|].
  cbn [Js.replace_colon_dot Js.string_forall] in *. apply andb_true_iff in I.
  destruct I as [C S]. now rewrite (iso_char_plain c C), (IH S).
Qed.






End Retention.

(** ** Properties of the deployment script, for any transport *)

Section Claims.

Context {T : Transport}.
Implicit Types w : World T.

Lemma loadConfig_outcome w :
  (exists cfg, fst (loadConfig w) = Returned cfg) \/ (exists e, fst (loadConfig w) = Thrown e).
Proof.
  unfold loadConfig. run. destruct (configFile w); cbn; eauto.
Qed.

Lemma loadConfig_same w w' :
  process w' = process w -> configFile w' = configFile w ->
  loadConfig w' = (fst (loadConfig w), w').
Proof.
  unfold loadConfig. run. intros -> ->. destruct (configFile w); reflexivity.
Qed.

Lemma deploy_unreadable options w e :
  fst (loadConfig w) = Thrown e ->
  exists lines, deploy options w = (Thrown e, evolve w (remote w) [] lines).
Proof.
  intros L. unfold deploy. run. rewrite bind_run.
  match goal with |- context [loadConfig ?W] =>
    rewrite (loadConfig_same w W eq_refl eq_refl) end.
  rewrite L. tidy. rewrite app_nil_r. eexists; reflexivity.
Qed.

Lemma dry_run_option key cfg : In "--dry-run" (rsync_args key cfg true).
Proof. unfold rsync_args. cbn. auto. Qed.

(** C3.  A dry-run deploy reads nothing from standard input (the
    confirmation gate is skipped) and spawns at most two commands: the
    connection test and then the synchronization command carrying the
    simulate-only option.  No backup command and no removal command is
    spawned. *)
Theorem dry_run_is_inert w :
  let res := deploy {| dryRun := true |} w in
  let p := process w in
  stdin (snd res) = stdin w
  /\ (forall cfg, In "--dry-run" (args (rsync p cfg true)))
  /\ exists h,
       history (snd res) = (history w ++ h)%list
       /\ (h = []
           \/ exists cfg r0,
                fst (loadConfig w) = Returned cfg
                /\ (h = [entry (connection_test p cfg) r0]
                    \/ exists r, h = [entry (connection_test p cfg) r0;
                                      entry (rsync p cfg true) r])).
Proof.
  intros res p. subst res p. split; [|split].
  2: { intros cfg. apply dry_run_option. }
  - destruct (loadConfig_outcome w) as [[cfg L] | [e L]].
    2: { destruct (deploy_unreadable {| dryRun := true |} w e L) as [l ->]. reflexivity. }
    destruct (Js.truthy (host cfg)) eqn:H.
    2: { destruct (deploy_unconfigured {| dryRun := true |} w cfg L H) as [l ->]. reflexivity. }
    destruct (Js.includes (existing w) (localPath cfg)) eqn:X.
    2: { destruct (deploy_no_source {| dryRun := true |} w cfg L X) as [l ->]. reflexivity. }
    destruct (exec T (connection_test (process w) cfg) (remote w)) as [r0 m0] eqn:E0.
    destruct (succeeded r0) eqn:S0.
    2: { destruct (deploy_unreachable {| dryRun := true |} w cfg r0 m0 L H X E0 S0) as [l ->].
         reflexivity. }
    destruct (exec T (rsync (process w) cfg true) m0) as [r m] eqn:E.
    destruct (deploy_dry w cfg r0 m0 r m L H X E0 S0 E) as [l ->]. reflexivity.
  - destruct (loadConfig_outcome w) as [[cfg L] | [e L]].
    2: { destruct (deploy_unreadable {| dryRun := true |} w e L) as [l ->].
         exists []. split; [reflexivity | now left]. }
    destruct (Js.truthy (host cfg)) eqn:H.
    2: { destruct (deploy_unconfigured {| dryRun := true |} w cfg L H) as [l ->].
         exists []. split; [reflexivity | now left]. }
    destruct (Js.includes (existing w) (localPath cfg)) eqn:X.
    2: { destruct (deploy_no_source {| dryRun := true |} w cfg L X) as [l ->].
         exists []. split; [reflexivity | now left]. }
    destruct (exec T (connection_test (process w) cfg) (remote w)) as [r0 m0] eqn:E0.
    destruct (succeeded r0) eqn:S0.
    2: { destruct (deploy_unreachable {| dryRun := true |} w cfg r0 m0 L H X E0 S0) as [l ->].
         eexists. split; [reflexivity|]. right. exists cfg, r0. split; [exact L | now left]. }
    destruct (exec T (rsync (process w) cfg true) m0) as [r m] eqn:E.
    destruct (deploy_dry w cfg r0 m0 r m L H X E0 S0 E) as [l ->].
    eexists. split; [reflexivity|]. right. exists cfg, r0. split; [exact L|]. right.
    now exists r.
Qed.

(** C6.  With a configuration that loads: when the local source directory
    does not exist, [deploy] returns false without spawning any command and
    leaves the machines untouched; when the connection test fails, [deploy]
    returns false having spawned the connection test only, so no backup and
    no synchronization command was issued. *)
Theorem deploy_fails_fast options w cfg :
  fst (loadConfig w) = Returned cfg ->
  let res := deploy options w in
  (Js.includes (existing w) (localPath cfg) = false ->
   fst res = Returned false
   /\ history (snd res) = history w
   /\ remote (snd res) = remote w)
  /\ (forall r m,
        Js.truthy (host cfg) = true ->
        Js.includes (existing w) (localPath cfg) = true ->
        exec T (connection_test (process w) cfg) (remote w) = (r, m) ->
        succeeded r = false ->
        fst res = Returned false
        /\ history (snd res) = (history w ++ [entry (connection_test (process w) cfg) r])%list
        /\ remote (snd res) = m).
Proof.
  intros L res. subst res. split.
  - intros X. destruct (deploy_no_source options w cfg L X) as [l ->].
    cbn. now rewrite app_nil_r.
  - intros r m H X E S. destruct (deploy_unreachable options w cfg r m L H X E S) as [l ->].
    cbn. auto.
Qed.

Lemma lower_y answer :
  (Js.toLowerCase answer =? "y") = true <-> answer = "y" \/ answer = "Y".
Proof.
  split.
  - destruct answer as [|c [|c' s]]; cbn; try discriminate.
    + destruct c as [[] [] [] [] [] [] [] []]; vm_compute; intros; solve [discriminate | auto].
    + destruct (Ascii.eqb (Js.lower c) "y"); discriminate.
  - intros [-> | ->]; reflexivity.
Qed.

(** C9.  At the confirmation gate of a real deploy (configuration loaded,
    host configured, source present, connection test passed, confirmation
    required) the answer lets the deploy through exactly when its lower-case
    form is the one-letter string y, that is when it is y or Y.  Any other
    answer, the word yes included, cancels: [deploy] returns false, prints
    the cancellation line and has spawned the connection test only.  An
    accepted answer is followed by the first backup command. *)
Theorem confirmation_gate w cfg r0 m0 answer rest :
  fst (loadConfig w) = Returned cfg ->
  Js.truthy (host cfg) = true ->
  Js.includes (existing w) (localPath cfg) = true ->
  exec T (connection_test (process w) cfg) (remote w) = (r0, m0) ->
  succeeded r0 = true ->
  requireConfirmation cfg = true ->
  stdin w = answer :: rest ->
  let res := deploy {| dryRun := false |} w in
  let test := entry (connection_test (process w) cfg) r0 in
  let mkdir := ssh (process w) cfg (sh_mkdir cfg) Pipe in
  ((Js.toLowerCase answer =? "y") = true <-> answer = "y" \/ answer = "Y")
  /\ ((Js.toLowerCase answer =? "y") = false ->
      fst res = Returned false
      /\ history (snd res) = (history w ++ [test])%list
      /\ remote (snd res) = m0
      /\ In (ConsoleLog, "❌ Deployment cancelled") (console (snd res)))
  /\ ((Js.toLowerCase answer =? "y") = true ->
      exists r1 h, history (snd res) = (history w ++ test :: entry mkdir r1 :: h)%list)
  /\ (answer = "yes" -> fst res = Returned false).
Proof.
  intros L H X E0 S0 Q I res test mkdir. subst res test mkdir.
  assert (Declined : (Js.toLowerCase answer =? "y") = false ->
      fst (deploy {| dryRun := false |} w) = Returned false
      /\ history (snd (deploy {| dryRun := false |} w))
         = (history w ++ [entry (connection_test (process w) cfg) r0])%list
      /\ remote (snd (deploy {| dryRun := false |} w)) = m0
      /\ In (ConsoleLog, "❌ Deployment cancelled")
            (console (snd (deploy {| dryRun := false |} w)))).
  { intros N. destruct (deploy_declined w cfg r0 m0 answer rest L H X E0 S0 Q I N)
      as (A & B & C & _ & D). auto. }
  split; [apply lower_y|]. split; [exact Declined|]. split.
  - intros Y.
    assert (G : gate_open cfg w) by (right; now exists answer, rest).
    destruct (exec T (ssh (process w) cfg (sh_mkdir cfg) Pipe) m0) as [r1 m1] eqn:E1.
    destruct (exec T (ssh (process w) cfg (sh_copy cfg (backupNameAt (now w))) Inherit) m1)
      as [r2 m2] eqn:E2.
    destruct (deploy_real w cfg r0 m0 r1 m1 r2 m2 L H X E0 S0 G E1 E2) as (D1 & D2 & D3).
    exists r1. destruct (succeeded r1) eqn:S1.
    + destruct (succeeded r2) eqn:S2.
      * destruct (D3 eq_refl eq_refl)
          as (W & m3 & h & l & r4 & m4 & _ & _ & _ & _ & _ & _ & _ & Hh & _).
        rewrite Hh. eexists. cbn [app]. reflexivity.
      * destruct (D2 eq_refl eq_refl) as [_ Hh]. rewrite Hh. eexists. reflexivity.
    + destruct (D1 eq_refl) as [_ Hh]. rewrite Hh. eexists. reflexivity.
  - intros ->. now apply Declined.
Qed.




(** C5 (amended).  [deployFiles] returns true when the synchronization
    command exits with status zero.  Otherwise it throws: the error of a
    command that closed says only that the command failed and with which
    code (the child inherits the terminal, so what it wrote went to the
    terminal and none of it is in the error), and the error of a command
    that could not be spawned is the spawn error itself. *)
Theorem sync_error_is_bare cfg dry w r m :
  exec T (rsync (process w) cfg dry) (remote w) = (r, m) ->
  let res := deployFiles cfg dry w in
  (succeeded r = true -> fst res = Returned true)
  /\ (succeeded r = false ->
      exists e,
        fst res = Thrown e
        /\ match r with
           | Closed code _ _ => message e = "Command failed with code " ++ show_code code ++ LF
           | SpawnError e' => e = e'
           end)
  /\ (forall code out err,
        r = Closed code out err ->
        In (ChildStdout, out) (console (snd res)) /\ In (ChildStderr, err) (console (snd res))).
Proof.
  intros E res. subst res. split; [|split].
  - intros S. destruct (deployFiles_run cfg dry w r m E) as [lines ->].
    destruct (settle_succeeded false r S) as (out & err & -> & ->). reflexivity.
  - intros S. destruct (deployFiles_run cfg dry w r m E) as [lines ->].
    destruct r as [[[|c|c]|] out err|e]; try discriminate; cbn; eexists; split; reflexivity.
  - intros code out err ->. unfold deployFiles. run. rewrite try_catch_run, bind_run.
    match goal with |- context [runCommand ?p ?a false ?W] =>
      rewrite (runCommand_exact p a false W _ _ E) end.
    cbn [shown]. destruct code as [[|c|c]|]; cbn [settle]; run; tidy; split; find_line.
Qed.


(** C8.  [cleanOldBackups] always returns normally, and when one of the
    commands it spawned failed it has written a warning to the console.
    [createBackup] returns the backup name whenever the directory creation
    and the copy exit with status zero, whatever happens in the cleanup.
    A real deploy that got that far goes on to the synchronization command
    after the cleanup commands and returns whether the synchronization
    exited with status zero. *)
Theorem cleanup_is_best_effort cfg w :
  let p := process w in
  let name := backupNameAt (now w) in
  let test := connection_test p cfg in
  let mkdir := ssh p cfg (sh_mkdir cfg) Pipe in
  let copy := ssh p cfg (sh_copy cfg name) Inherit in
  let sync := rsync p cfg false in
  (exists m h lines,
     cleanOldBackups cfg w = (Returned tt, evolve w m h lines)
     /\ ((exists x, In x h /\ succeeded (result x) = false) ->
         exists msg, In (ConsoleWarn, "⚠️  Could not clean old backups: " ++ msg) lines))
  /\ (forall r1 m1 r2 m2,
        exec T mkdir (remote w) = (r1, m1) -> succeeded r1 = true ->
        exec T copy m1 = (r2, m2) -> succeeded r2 = true ->
        fst (createBackup cfg w) = Returned name)
  /\ (forall r0 m0 r1 m1 r2 m2,
        fst (loadConfig w) = Returned cfg ->
        Js.truthy (host cfg) = true ->
        Js.includes (existing w) (localPath cfg) = true ->
        exec T test (remote w) = (r0, m0) -> succeeded r0 = true ->
        gate_open cfg w ->
        exec T mkdir m0 = (r1, m1) -> succeeded r1 = true ->
        exec T copy m1 = (r2, m2) -> succeeded r2 = true ->
        let res := deploy {| dryRun := false |} w in
        exists m3 h r4 m4,
          exec T sync m3 = (r4, m4)
          /\ Forall (fun x => cleanup_command p cfg (cmd x)) h
          /\ history (snd res)
             = (history w ++ [entry test r0; entry mkdir r1; entry copy r2] ++ h
                ++ [entry sync r4])%list
          /\ fst res = Returned (succeeded r4)).
Proof.
  intros p name test mkdir copy sync. split; [|split].
  - destruct (cleanOldBackups_run cfg w) as (m & h & lines & R & _ & W).
    exists m, h, lines. split; [exact R|]. intros (x & Ix & Fx).
    destruct W as [Hs | Hw]; [|exact Hw].
    unfold all_succeeded in Hs. rewrite Forall_forall in Hs. specialize (Hs x Ix). congruence.
  - intros r1 m1 r2 m2 E1 S1 E2 S2.
    destruct (createBackup_run cfg w r1 m1 r2 m2 E1 E2) as (_ & _ & C3).
    destruct (C3 S1 S2) as (m3 & h & lines & -> & _). reflexivity.
  - intros r0 m0 r1 m1 r2 m2 L H X E0 S0 G E1 S1 E2 S2 res. subst res.
    destruct (deploy_real w cfg r0 m0 r1 m1 r2 m2 L H X E0 S0 G E1 E2) as (_ & _ & D3).
    destruct (D3 S1 S2) as (W & m3 & h & l & r4 & m4 & _ & _ & _ & _ & E4 & Hc & F & Hh & _).
    exists m3, h, r4, m4. auto.
Qed.









End Claims.

(** ** When a real deploy returns true *)

Section Outcomes.

Context {T : Transport}.
Implicit Types w : World T.

Lemma deploy_stalled w cfg r0 m0 :
  fst (loadConfig w) = Returned cfg ->
  Js.truthy (host cfg) = true ->
  Js.includes (existing w) (localPath cfg) = true ->
  exec T (connection_test (process w) cfg) (remote w) = (r0, m0) ->
  succeeded r0 = true ->
  requireConfirmation cfg = true ->
  stdin w = [] ->
  let res := deploy {| dryRun := false |} w in
  fst res = Stalled
  /\ history (snd res) = (history w ++ [entry (connection_test (process w) cfg) r0])%list
  /\ remote (snd res) = m0.
Proof.
  intros L H X E0 S0 Q I res. subst res. unfold deploy. run.
  rewrite bind_run.
  match goal with |- context [loadConfig ?W] =>
    rewrite (loadConfig_same w W eq_refl eq_refl), L end.
  cbv beta iota. rewrite H. cbn [negb]. run.
  rewrite X. cbn [negb]. rewrite bind_run.
  match goal with |- context [testConnection ?c ?W] =>
    destruct (testConnection_run c W r0 m0 E0) as [lines ->] end.
  rewrite S0, Q. cbn [negb dryRun andb].
  unfold confirm. run. rewrite I. run. tidy. repeat split.
Qed.


End Outcomes.

(** ** Properties on the remote host *)

Section HostClaims.

Import Host.



End HostClaims.

(** ** Instances and counterexamples on the example worlds *)




Lemma sync_error_is_bare_witness :
  fst (deployFiles (Example.config 2) false (Example.world [] [true] [] 2))
  = Thrown {| message := "Command failed with code 255" ++ LF |}.
Proof.
  destruct (sync_error_is_bare (Example.config 2) false (Example.world [] [true] [] 2)
              _ _ eq_refl) as (_ & F & _).
  destruct (F eq_refl) as (e & -> & M). destruct e as [msg]. cbn in M. now subst.
Defined.

Lemma sync_error_lacks_output :
  ~ sync_error_claim (Example.config 2) false (Example.world [] [true] [] 2).
Proof.
  intros C. destruct (C _ _ eq_refl) as [_ F]. destruct (F eq_refl) as (e & Th & Ca).
  vm_compute in Th. injection Th as <-. vm_compute in Ca. discriminate.
Qed.



Lemma tidy_example outages : Host.tidy_backups (Example.host outages).
Proof.
  split; [repeat constructor|].
  repeat (constructor; [cbn; intuition discriminate|]). constructor.
Defined.



Lemma deploy_fails_fast_witness :
  fst (deploy {| dryRun := false |} (Example.unbuilt [])) = Returned false
  /\ history (snd (deploy {| dryRun := false |} (Example.unbuilt []))) = [].
Proof.
  destruct (deploy_fails_fast {| dryRun := false |} (Example.unbuilt []) (Example.config 2)
              eq_refl) as [A _].
  destruct (A eq_refl) as (F & H & _). split; assumption.
Defined.

Lemma confirmation_gate_witness :
  fst (deploy {| dryRun := false |} (Example.world [] [] ["yes"] 2)) = Returned false.
Proof.
  apply (confirmation_gate (Example.world [] [] ["yes"] 2) (Example.config 2)
           (Host.ok ("Connection successful" ++ LF)) (Example.host []) "yes" []);
    reflexivity.
Defined.



(** A deploy whose cleanup could not list the backups still succeeds. *)
Lemma deploy_survives_failed_cleanup :
  let res := deploy {| dryRun := false |}
               (Example.world [] [false; false; false; true] ["y"] 2) in
  fst res = Returned true
  /\ List.length (Host.backups (remote (snd res))) = 4%nat
  /\ Host.site (remote (snd res)) = Some "v4".
Proof. vm_compute. repeat split. Qed.

(** Three real deploys in a row with [maxBackups = 2] leave the backups of
    the last two. *)
Lemma three_deploys_keep_two :
  let w1 := snd (deploy {| dryRun := false |} (Example.world [] [] ["y"] 2)) in
  let w2 := snd (deploy {| dryRun := false |}
                   (Example.later "2024-01-02T00:00:00.000Z" w1)) in
  let w3 := snd (deploy {| dryRun := false |}
                   (Example.later "2024-01-03T00:00:00.000Z" w2)) in
  Host.names (remote w3)
  = ["backup-2024-01-03T00-00-00-000Z"; "backup-2024-01-02T00-00-00-000Z"].
Proof. vm_compute. reflexivity. Qed.

(** On a host whose connection does not fail, a dry run leaves the site and
    the backups as they were. *)
Lemma dry_run_leaves_host (w : World Host.transport) :
  Host.outages (remote w) = [] ->
  remote (snd (deploy {| dryRun := true |} w)) = remote w.
Proof.
  intros O.
  destruct (loadConfig_outcome w) as [[cfg L] | [e L]].
  2: { destruct (deploy_unreadable {| dryRun := true |} w e L) as [l ->]. reflexivity. }
  destruct (Js.truthy (host cfg)) eqn:H.
  2: { destruct (deploy_unconfigured {| dryRun := true |} w cfg L H) as [l ->]. reflexivity. }
  destruct (Js.includes (existing w) (localPath cfg)) eqn:X.
  2: { destruct (deploy_no_source {| dryRun := true |} w cfg L X) as [l ->]. reflexivity. }
  pose proof (run_test (process w) cfg (remote w) O) as E0.
  destruct (Host.run (rsync (process w) cfg true) (remote w)) as [r m] eqn:E.
  destruct (deploy_dry w cfg _ _ _ _ L H X E0 eq_refl E) as [l ->].
  cbn [snd remote evolve].
  pose proof (run_dry_keeps_host (process w) cfg (remote w) O) as K.
  rewrite E in K. exact K.
Qed.


Lemma dry_run_is_inert_witness :
  stdin (snd (deploy {| dryRun := true |} (Example.world ["--dry-run"] [] ["y"] 2))) = ["y"].
Proof.
  exact (proj1 (dry_run_is_inert (Example.world ["--dry-run"] [] ["y"] 2))).
Defined.

Lemma cleanup_is_best_effort_witness :
  fst (createBackup (Example.config 2) (Example.world [] [false; false; true] [] 2))
  = Returned "backup-2024-01-01T00-00-00-000Z".
Proof.
  destruct (cleanup_is_best_effort (Example.config 2)
              (Example.world [] [false; false; true] [] 2)) as (_ & B & _).
  exact (B (Host.ok "") (Example.host [false; true])
           (Host.ok "")
           (Host.with_backups
              (("backup-2024-01-01T00-00-00-000Z", "v3") :: Host.backups (Example.host [true]))
              (Example.host [true]))
           eq_refl eq_refl eq_refl eq_refl).
Defined.

(** ** Further properties of the deployment script, for any transport *)

Section Coverage.

Context {T : Transport}.
Implicit Types w : World T.

Lemma question_world prompt d w answer rest :
  stdin w = answer :: rest ->
  exists lines,
    question prompt d w =
    (Returned (Js.or_else (Js.trim answer) d),
     {| process := process w; remote := remote w; history := history w;
        console := (console w ++ lines)%list; stdin := rest;
        configFile := configFile w; existing := existing w; now := now w |}).
Proof.
  intros I. unfold question, rl_question. rewrite !bind_run, print_run. cbv beta iota.
  cbn [stdin evolve]. rewrite I. eexists. run. rewrite app_nil_r. reflexivity.
Qed.

(** X2.  With a configuration that loads and six answers,
    [configureDeployment] asks its six questions, each answered in turn,
    and then spawns one command and no other: the connection test of the
    loaded configuration with the answers put in, an answer that is blank
    after trimming keeping the loaded value. *)
Theorem configure_tests_the_answers w cfg a1 a2 a3 a4 a5 a6 rest r m :
  let cfg' := answered cfg a1 a2 a3 a4 a5 a6 in
  let test := connection_test (process w) cfg' in
  fst (loadConfig w) = Returned cfg ->
  stdin w = a1 :: a2 :: a3 :: a4 :: a5 :: a6 :: rest ->
  exec T test (remote w) = (r, m) ->
  let res := configureDeployment w in
  history (snd res) = (history w ++ [entry test r])%list
  /\ remote (snd res) = m
  /\ stdin (snd res) = rest.
Proof.
  intros cfg' test L I E res. subst res.
  unfold configureDeployment.
  repeat first [rewrite print_run; cbv beta iota | rewrite bind_run].
  match goal with |- context [loadConfig ?W] =>
    rewrite (loadConfig_same w W eq_refl eq_refl), L;
    assert (I0 : stdin W = a1 :: a2 :: a3 :: a4 :: a5 :: a6 :: rest) by exact I
  end.
  cbv beta iota.
  destruct (question_world "Droplet IP or hostname" (host cfg) _ _ _ I0) as (l1 & R1).
  rewrite bind_run, R1. clear R1 I0. cbv beta iota.
  cbn [process remote history console configFile existing now evolve].
  rewrite bind_run.
  match goal with |- context [question "SSH user" ?d ?W] =>
    destruct (question_world "SSH user" d W a2 (a3 :: a4 :: a5 :: a6 :: rest) eq_refl)
      as (l2 & R2) end.
  rewrite R2. clear R2. cbv beta iota.
  cbn [process remote history console configFile existing now].
  rewrite bind_run.
  match goal with |- context [question "SSH port" ?d ?W] =>
    destruct (question_world "SSH port" d W a3 (a4 :: a5 :: a6 :: rest) eq_refl)
      as (l3 & R3) end.
  rewrite R3. clear R3. cbv beta iota.
  cbn [process remote history console configFile existing now].
  rewrite bind_run.
  match goal with |- context [question "SSH key path" ?d ?W] =>
    destruct (question_world "SSH key path" d W a4 (a5 :: a6 :: rest) eq_refl)
      as (l4 & R4) end.
  rewrite R4. clear R4. cbv beta iota.
  cbn [process remote history console configFile existing now].
  rewrite bind_run.
  match goal with |- context [question "Remote site path" ?d ?W] =>
    destruct (question_world "Remote site path" d W a5 (a6 :: rest) eq_refl)
      as (l5 & R5) end.
  rewrite R5. clear R5. cbv beta iota.
  cbn [process remote history console configFile existing now].
  rewrite bind_run.
  match goal with |- context [question "Remote backup path" ?d ?W] =>
    destruct (question_world "Remote backup path" d W a6 rest eq_refl)
      as (l6 & R6) end.
  rewrite R6. clear R6. cbv beta iota.
  cbn [process remote history console configFile existing now].
  rewrite bind_run.
  match goal with |- context [testConnection ?c ?W] =>
    destruct (testConnection_run c W r m E) as [lines ->] end.
  destruct (succeeded r); unfold saveConfig, writeConfigFile; run; repeat split;
    now rewrite !app_nil_r.
Qed.

(** X3.  [testConnection] spawns the connection test and nothing else,
    reads no input, and returns whether the test exited with status zero.
    On success it prints the success line; when the child closed with
    another status it prints, on the error console, the failure line with
    the exit code and what the child wrote (its standard error, or its
    standard output when that is empty). *)
Theorem testConnection_reports cfg w r m :
  let test := connection_test (process w) cfg in
  exec T test (remote w) = (r, m) ->
  let res := testConnection cfg w in
  fst res = Returned (succeeded r)
  /\ history (snd res) = (history w ++ [entry test r])%list
  /\ remote (snd res) = m
  /\ stdin (snd res) = stdin w
  /\ (succeeded r = true -> In (ConsoleLog, "✅ SSH connection successful") (console (snd res)))
  /\ (succeeded r = false ->
      forall code out err,
        r = Closed code out err ->
        In (ConsoleError,
            "❌ SSH connection failed: Command failed with code " ++ show_code code ++ LF
            ++ Js.or_else err out)
           (console (snd res))).
Proof.
  intros test E res. subst res test. unfold testConnection. run. rewrite try_catch_run. run.
  rewrite bind_run.
  match goal with |- context [runCommand ?p ?a true ?W] =>
    rewrite (runCommand_exact p a true W _ _ E) end.
  destruct r as [[[|c|c]|] out err|e]; cbn [settle succeeded shown]; run; tidy;
    repeat split; cbn [append message];
    first [ intros S; discriminate S
          | intros _ ? ? ? S; discriminate S
          | solve [intros _ ? ? ? [= <- <- <-]; find_line]
          | solve [intros _; find_line] ].
Qed.

(** X4.  [createBackup] stops at the first command that fails and throws
    that command's error again after printing it: when the directory
    creation fails the copy is never spawned, and when the copy fails no
    cleanup command is spawned. *)
Theorem createBackup_stops_at_failure cfg w r1 m1 r2 m2 :
  let p := process w in
  let mkdir := ssh p cfg (sh_mkdir cfg) Pipe in
  let copy := ssh p cfg (sh_copy cfg (backupNameAt (now w))) Inherit in
  exec T mkdir (remote w) = (r1, m1) ->
  exec T copy m1 = (r2, m2) ->
  let res := createBackup cfg w in
  (succeeded r1 = false ->
   exists e,
     settle true r1 = Thrown e
     /\ fst res = Thrown e
     /\ history (snd res) = (history w ++ [entry mkdir r1])%list
     /\ remote (snd res) = m1
     /\ In (ConsoleError, "❌ Backup creation failed: " ++ message e) (console (snd res)))
  /\ (succeeded r1 = true -> succeeded r2 = false ->
      exists e,
        settle false r2 = Thrown e
        /\ fst res = Thrown e
        /\ history (snd res) = (history w ++ [entry mkdir r1; entry copy r2])%list
        /\ remote (snd res) = m2
        /\ In (ConsoleError, "❌ Backup creation failed: " ++ message e)
              (console (snd res))).
Proof.
  intros p mkdir copy E1 E2 res. subst res p mkdir copy.
  unfold createBackup. run. rewrite try_catch_run. run.
  call_runCommand E1. split.
  - intros S1. destruct (settle_failed true r1 S1) as (e & Se). rewrite Se. run. tidy.
    exists e. repeat split. find_line.
  - intros S1 S2. destruct (settle_succeeded true r1 S1) as (out & err & -> & ->). run.
    call_runCommand E2.
    destruct (settle_failed false r2 S2) as (e & Se). rewrite Se. run. tidy.
    exists e. repeat split. find_line.
Qed.

Lemma removal_loop_prefix cfg key toDelete : forall w,
  key = expandHome (process w) (keyPath cfg) ->
  exists o m h lines,
    for_of toDelete
      (fun backup =>
         runCommand "ssh" (ssh_args key cfg (sh_remove cfg backup)) true ;;
         print ConsoleLog ("   Deleted: " ++ backup)) w
    = (o, evolve w m h lines)
    /\ map cmd h = map (removal (process w) cfg) (firstn (List.length h) toDelete)
    /\ all_succeeded (removelast h)
    /\ (all_succeeded h -> List.length h = List.length toDelete)
    /\ (o = Returned tt \/ exists e, o = Thrown e).
Proof.
  induction toDelete as [|b rest IH]; intros w ->.
  - exists (Returned tt), (remote w), [], []. cbn [for_of]. run.
    rewrite evolve_id. repeat split; [constructor | now left].
  - cbn [for_of].
    destruct (exec T (ssh (process w) cfg (sh_remove cfg b) Pipe) (remote w)) as [r m] eqn:E.
    rewrite bind_run. call_runCommand E.
    destruct (succeeded r) eqn:S.
    + destruct (settle_succeeded true r S) as (out & err & -> & ->). run.
      match goal with |- context [for_of rest ?f ?W] =>
        destruct (IH W eq_refl) as (o & m' & h & lines' & -> & Hc & Hl & Hs & Ho) end.
      tidy. exists o, m'. eexists. eexists. split; [reflexivity|].
      cbn [process] in Hc. cbn [app List.length firstn map cmd entry]. repeat split.
      * now rewrite Hc.
      * destruct h as [|x h']; [constructor|].
        change (all_succeeded (entry (ssh (process w) cfg (sh_remove cfg b) Pipe)
                                     (Closed (Some 0%Z) out err) :: removelast (x :: h'))).
        constructor; [reflexivity | exact Hl].
      * intros A. inversion A; subst. f_equal. now apply Hs.
      * exact Ho.
    + destruct (settle_failed true r S) as (e & ->). run.
      exists (Thrown e), m. eexists. eexists. split; [reflexivity|].
      cbn [app List.length firstn map cmd entry removelast]. repeat split.
      * constructor.
      * intros A. inversion A as [|? ? A1 A2]; subst. cbn [result entry] in A1. congruence.
      * right; now exists e.
Qed.

(** X5.  [cleanOldBackups] spawns the listing first.  When the listing
    fails it spawns nothing else.  When it succeeds, the removals follow the
    surplus of the parsed listing in order, one command per name: every
    removal but the last one spawned has succeeded, and the loop stops short
    of the whole surplus only after a removal that failed. *)
Theorem cleanup_removes_in_order cfg w r m :
  let p := process w in
  let ls := ssh p cfg (sh_list cfg) Pipe in
  exec T ls (remote w) = (r, m) ->
  let res := cleanOldBackups cfg w in
  exists h,
    history (snd res) = (history w ++ entry ls r :: h)%list
    /\ (succeeded r = false -> h = [])
    /\ (forall out err, r = Closed (Some 0%Z) out err ->
        let toDelete := surplus cfg (parse_listing out) in
        map cmd h = map (removal p cfg) (firstn (List.length h) toDelete)
        /\ all_succeeded (removelast h)
        /\ (all_succeeded h -> List.length h = List.length toDelete)).
Proof.
  intros p ls E res. subst res p ls.
  unfold cleanOldBackups. rewrite try_catch_run. run.
  call_runCommand E.
  destruct (succeeded r) eqn:S.
  - destruct (settle_succeeded true r S) as (out & err & -> & ->). run.
    unfold surplus. cbn [stdout].
    destruct (Z.of_nat _ >? maxBackups cfg)%Z eqn:G; run.
    + match goal with |- context [for_of ?l ?f ?W] =>
        destruct (removal_loop_prefix cfg _ l W eq_refl)
          as (o & m' & h & lines' & R & Hc & Hl & Hs & Ho) end.
      cbn [process] in R, Hc. rewrite R; clear R.
      exists h. destruct Ho as [-> | [e ->]]; run; tidy.
      * split; [reflexivity|]. split; [discriminate|].
        intros out' err' [= <- <-]. cbv zeta. rewrite G. auto.
      * split; [reflexivity|]. split; [discriminate|].
        intros out' err' [= <- <-]. cbv zeta. rewrite G. auto.
    + tidy. exists []. split; [reflexivity|]. split; [discriminate|].
      intros out' err' [= <- <-]. cbv zeta. rewrite G. cbn. repeat split; constructor.
  - destruct (settle_failed true r S) as (e & ->). run. tidy.
    exists []. split; [reflexivity|]. split; [reflexivity|].
    intros out err ->. discriminate S.
Qed.



Lemma deploy_kinds options w cfg :
  fst (loadConfig w) = Returned cfg ->
  (exists done, fst (deploy options w) = Returned done)
  \/ (fst (deploy options w) = Stalled
      /\ dryRun options = false /\ requireConfirmation cfg = true /\ stdin w = []).
Proof.
  intros L.
  destruct (Js.truthy (host cfg)) eqn:H.
  2: { destruct (deploy_unconfigured options w cfg L H) as [l ->]. left. now exists false. }
  destruct (Js.includes (existing w) (localPath cfg)) eqn:X.
  2: { destruct (deploy_no_source options w cfg L X) as [l ->]. left. now exists false. }
  destruct (exec T (connection_test (process w) cfg) (remote w)) as [r0 m0] eqn:E0.
  destruct (succeeded r0) eqn:S0.
  2: { destruct (deploy_unreachable options w cfg r0 m0 L H X E0 S0) as [l ->].
       left. now exists false. }
  destruct options as [[|]].
  { destruct (exec T (rsync (process w) cfg true) m0) as [r m] eqn:E.
    destruct (deploy_dry w cfg r0 m0 r m L H X E0 S0 E) as [l ->]. left. eexists; reflexivity. }
  assert (Open : gate_open cfg w ->
                 exists done, fst (deploy {| dryRun := false |} w) = Returned done).
  { intros G.
    destruct (exec T (ssh (process w) cfg (sh_mkdir cfg) Pipe) m0) as [r1 m1] eqn:E1.
    destruct (exec T (ssh (process w) cfg (sh_copy cfg (backupNameAt (now w))) Inherit) m1)
      as [r2 m2] eqn:E2.
    destruct (deploy_real w cfg r0 m0 r1 m1 r2 m2 L H X E0 S0 G E1 E2) as (D1 & D2 & D3).
    destruct (succeeded r1) eqn:S1.
    - destruct (succeeded r2) eqn:S2.
      + destruct (D3 eq_refl eq_refl)
          as (W & m3 & hc & l & r4 & m4 & _ & _ & _ & _ & _ & _ & F & _).
        eexists; exact F.
      + destruct (D2 eq_refl eq_refl) as [F _]. eexists; exact F.
    - destruct (D1 eq_refl) as [F _]. eexists; exact F. }
  destruct (requireConfirmation cfg) eqn:Q.
  2: { left. apply Open. now left. }
  destruct (stdin w) as [|answer rest] eqn:I.
  - destruct (deploy_stalled w cfg r0 m0 L H X E0 S0 Q I) as (F & _). right. auto.
  - destruct (Js.toLowerCase answer =? "y") eqn:Y.
    + left. apply Open. right. exists answer, rest. now rewrite I.
    + destruct (deploy_declined w cfg r0 m0 answer rest L H X E0 S0 Q I Y) as (F & _).
      left. eexists; exact F.
Qed.

(** X7.  [deploy] throws exactly when the configuration cannot be read,
    and then with the error of [loadConfig]; it never ends the process
    itself; and it waits for input only in a real deploy that requires the
    confirmation while no line of input is left. *)
Theorem deploy_throws_only_unreadable options w :
  (forall e, fst (deploy options w) = Thrown e <-> fst (loadConfig w) = Thrown e)
  /\ (forall code, fst (deploy options w) <> Exited code)
  /\ (fst (deploy options w) = Stalled ->
      dryRun options = false /\ stdin w = []
      /\ exists cfg, fst (loadConfig w) = Returned cfg /\ requireConfirmation cfg = true).
Proof.
  destruct (loadConfig_outcome w) as [[cfg L] | [e' L]].
  - destruct (deploy_kinds options w cfg L) as [[done F] | (F & D & Q & I)]; rewrite F, L.
    + split; [intros e; split; intros E; discriminate E|].
      split; [intros code; discriminate | intros E; discriminate E].
    + split; [intros e; split; intros E; discriminate E|].
      split; [intros code; discriminate | intros _].
      split; [exact D|]. split; [exact I|]. now exists cfg.
  - destruct (deploy_unreadable options w e' L) as [l F]. rewrite F, L. cbn [fst].
    split; [intros e; split; intros [= ->]; reflexivity|].
    split; [intros code; discriminate | intros E; discriminate E].
Qed.







(** X9.  With a configuration file that cannot be parsed, the help still
    prints the usage and exits with 0 without looking at the file; every
    other invocation ends in the uncaught error of the parser, before any
    command is spawned and before any input is read. *)
Theorem unreadable_config_is_fatal w why :
  configFile w = Malformed why ->
  (wants_help (process w) = true ->
   main w = (Exited 0%Z, evolve w (remote w) [] [(ConsoleLog, usage)]))
  /\ (wants_help (process w) = false ->
      fst (main w) = Thrown {| message := why |}
      /\ history (snd (main w)) = history w
      /\ remote (snd (main w)) = remote w
      /\ stdin (snd (main w)) = stdin w).
Proof.
  unfold wants_help, wants, flags, main. intros F. split; intros H; run; rewrite H; run.
  { tidy. now rewrite app_nil_r. }
  assert (L : forall W : World T, process W = process w -> configFile W = configFile w ->
              loadConfig W = (Thrown {| message := why |}, W)).
  { intros W P C. rewrite (loadConfig_same w W P C). unfold loadConfig. run. now rewrite F. }
  destruct (Js.includes (skipn 2 (argv (process w))) "--config"); run.
  - unfold configureDeployment.
    repeat first [rewrite print_run; cbv beta iota | rewrite bind_run].
    rewrite L by reflexivity. cbn. now rewrite !app_nil_r.
  - destruct (Js.includes (skipn 2 (argv (process w))) "--rollback"); run.
    + rewrite !bind_run, L by reflexivity. cbn. auto.
    + rewrite bind_run. unfold deploy.
      repeat first [rewrite print_run; cbv beta iota | rewrite bind_run].
      rewrite L by reflexivity. cbn. now rewrite !app_nil_r.
Qed.

End Coverage.

(** ** The arguments of rsync and the names of the backups *)

(** X10.  The arguments [deployFiles] hands to rsync: the options, the
    simulate-only option in a dry run, the exclude patterns, then the remote
    shell, the source and the target.  Filtering the array drops an empty
    exclude pattern but keeps its flag, which then stands before the next
    argument. *)
Theorem rsync_args_shape key c dry :
  rsync_args key c dry
  = (["-avz"; "--delete"] ++ (if dry then ["--dry-run"] else [])
     ++ flat_map exclude_pair (exclude c)
     ++ ["-e"; ("ssh -i " ++ key ++ " -p " ++ port c)%string; (localPath c ++ "/")%string;
         (user c ++ "@" ++ host c ++ ":" ++ remotePath c ++ "/")%string])%list.
Proof.
  unfold rsync_args. cbv zeta.
  rewrite !filter_app, filter_exclude_pairs.
  assert (S : Js.truthy (localPath c ++ "/") = true) by now apply truthy_append_r.
  assert (G : Js.truthy (user c ++ "@" ++ host c ++ ":" ++ remotePath c ++ "/") = true).
  { rewrite <- !append_assoc. now apply truthy_append_r. }
  cbn [filter]. rewrite S, G.
  change (Js.truthy "-e") with true. change (Js.truthy "-avz") with true.
  change (Js.truthy "--delete") with true.
  change (Js.truthy ("ssh -i " ++ key ++ " -p " ++ port c)) with true.
  destruct dry; reflexivity.
Qed.

Lemma digit_kept c : is_digit c = true -> dashed c = c.
Proof.
  destruct c as [[] [] [] [] [] [] [] []]; vm_compute; intros; solve [discriminate | reflexivity].
Qed.

Lemma fits_same_name pattern : forall s1 s2,
  fits pattern s1 = true -> fits pattern s2 = true ->
  Js.replace_colon_dot s1 = Js.replace_colon_dot s2 -> s1 = s2.
Proof.
  induction pattern as [|p pattern IH]; intros [|c1 s1] [|c2 s2] F1 F2 E;
    cbn [fits] in F1, F2; try discriminate; [reflexivity|].
  apply andb_true_iff in F1, F2. destruct F1 as [C1 F1], F2 as [C2 F2].
  cbn [Js.replace_colon_dot] in E. injection E as Ec E.
  rewrite (IH s1 s2 F1 F2 E). f_equal.
  destruct (Ascii.eqb p "d"%char).
  - fold (dashed c1) in Ec. fold (dashed c2) in Ec.
    now rewrite (digit_kept c1 C1), (digit_kept c2 C2) in Ec.
  - apply Ascii.eqb_eq in C1, C2. congruence.
Qed.

Lemma fits_iso pattern : forall s,
  Js.string_forall (fun p => Ascii.eqb p "d"%char || iso_char p) pattern = true ->
  fits pattern s = true -> iso_timestamp s = true.
Proof.
  unfold iso_timestamp.
  induction pattern as [|p pattern IH]; intros [|c s] P F; cbn [fits] in F;
    try discriminate; [reflexivity|].
  cbn [Js.string_forall] in *. apply andb_true_iff in P, F.
  destruct P as [Pp P], F as [C F]. rewrite (IH s P F), andb_true_r.
  destruct (Ascii.eqb p "d"%char) eqn:D.
  - revert C. clear. destruct c as [[] [] [] [] [] [] [] []]; vm_compute; auto.
  - apply Ascii.eqb_eq in C. subst c. exact Pp.
Qed.

(** X11.  The backups of two instants have the same name only when the
    instants are the same, and the name is made of letters, digits and the
    signs + - . _ only, so that it is one word of the remote command
    lines. *)
Theorem backup_names_tell_instants_apart t1 t2 :
  iso_instant t1 = true -> iso_instant t2 = true ->
  (backupNameAt t1 = backupNameAt t2 -> t1 = t2)
  /\ Host.plain_name (backupNameAt t1) = true.
Proof.
  intros I1 I2. split.
  - unfold backupNameAt. intros E. injection E as E.
    exact (fits_same_name _ _ _ I1 I2 E).
  - apply backupName_plain. now apply (fits_iso "dddd-dd-ddTdd:dd:dd.dddZ").
Qed.

(** ** Further properties on the remote host *)

Section HostCoverage.
Import Host.
Implicit Types w : World Host.transport.

Lemma slice_from_end {A} (k : nat) (xs : list A) :
  Js.slice_from (- Z.of_nat (S k)) xs = skipn (List.length xs - S k) xs.
Proof.
  unfold Js.slice_from. destruct (Z.ltb_spec (- Z.of_nat (S k)) 0); [|lia].
  f_equal. lia.
Qed.

(** X12.  A negative [maxBackups] does not switch the cleanup off: on a
    reliable host with a tidy backup directory, a limit of minus [k]
    ([k] at least one) makes [cleanOldBackups] remove the [k] oldest backups
    (all of them when there are fewer), whatever their number. *)
Theorem negative_limit_drops_oldest cfg w k :
  serves (remote w) cfg -> outages (remote w) = [] -> tidy_backups (remote w) ->
  maxBackups cfg = (- Z.of_nat (S k))%Z ->
  let before := backups (remote w) in
  let res := cleanOldBackups cfg w in
  fst res = Returned tt
  /\ backups (remote (snd res)) = firstn (List.length before - S k) before
  /\ map cmd (skipn (List.length (history w)) (history (snd res)))
     = ssh (process w) cfg (sh_list cfg) Pipe
       :: map (fun b => ssh (process w) cfg (sh_remove cfg b) Pipe)
              (skipn (List.length before - S k) (names (remote w))).
Proof.
  intros Sv O [P D] Mx before res. subst before res.
  unfold cleanOldBackups. rewrite try_catch_run. run.
  pose proof (run_list (process w) cfg (remote w) Sv O) as E.
  call_runCommand E. cbn [ok settle stdout]. run.
  rewrite (parse_listing_names _ P), Mx, slice_from_end.
  destruct (Z.gtb_spec (Z.of_nat (List.length (names (remote w)))) (- Z.of_nat (S k)))
    as [G|G]; [|lia].
  run.
  assert (Ln : List.length (names (remote w)) = List.length (backups (remote w))).
  { unfold names. now rewrite length_map. }
  rewrite Ln.
  set (j := (List.length (backups (remote w)) - S k)%nat).
  match goal with |- context [for_of ?l ?f ?W] =>
    destruct (removal_loop_host cfg _ l W eq_refl) as (h & lines' & R & Hc & Hs) end.
  - exact Sv.
  - exact O.
  - rewrite <- (firstn_skipn j) in D. now apply NoDup_app_remove_l in D.
  - intros x Ix. cbn [remote evolve]. rewrite <- (firstn_skipn j (names (remote w))).
    apply in_or_app. now right.
  - cbn [process remote evolve] in R, Hc. rewrite R; clear R. tidy.
    unfold names. rewrite kept_newest by exact D.
    split; [reflexivity|]. split; [reflexivity|].
    rewrite skipn_app, skipn_all, Nat.sub_diag. cbn [skipn app map cmd entry].
    now rewrite Hc.
Qed.












End HostCoverage.

(** ** The posts found by the scanner *)

Section Scanner.
Import Posts.

Lemma scan_items dir items :
  scanDirectory dir (Dir items) = scanItems scanDirectory dir items.
Proof.
  cbn [scanDirectory]. induction items as [|[item child] rest IH]; [reflexivity|].
  cbn [scanItems]. now rewrite <- IH.
Qed.

Lemma readable_items items :
  readable (Dir items) = forallb (fun entry => readable (snd entry)) items.
Proof.
  cbn [readable]. induction items as [|[item child] rest IH]; [reflexivity|].
  cbn [forallb snd]. now rewrite <- IH.
Qed.

Lemma depth_child item child items :
  In (item, child) items -> (depth child < depth (Dir items))%nat.
Proof.
  cbn [depth]. induction items as [|[i c] rest IH]; intros I; [destruct I|].
  destruct I as [[= -> ->] | I]; [lia|]. specialize (IH I). lia.
Qed.

Lemma depth_rest entry rest : (depth (Dir rest) <= depth (Dir (entry :: rest)))%nat.
Proof. destruct entry as [i c]. cbn [depth]. lia. Qed.

(** A tree that can be read all over is scanned to the end, and the paths
    found are those of its posts. *)
Lemma scan_readable n : forall items dir,
  (depth (Dir items) <= n)%nat ->
  readable (Dir items) = true ->
  exists found,
    scanDirectory dir (Dir items) = Returned found
    /\ forall f,
         In f found <->
         exists path, file_at items path /\ is_post (last path "") = true
                      /\ f = under dir path.
Proof.
  induction n as [|n IH]; intros items dir Dn R; [cbn [depth] in Dn; lia|].
  rewrite scan_items. rewrite readable_items in R.
  induction items as [|[item child] rest IHr].
  - exists []. split; [reflexivity|]. intros f. split; [intros []|].
    intros (path & F & _). inversion F as [? ? I|? ? ? ? I]; destruct I.
  - cbn [forallb snd] in R. apply andb_true_iff in R. destruct R as [Rc Rr].
    destruct IHr as (more & Em & Hm).
    { pose proof (depth_rest (item, child) rest). lia. }
    { exact Rr. }
    assert (Dc : (depth child <= n)%nat).
    { pose proof (depth_child item child ((item, child) :: rest) (or_introl eq_refl)). lia. }
    cbn [scanItems]. rewrite Em.
    destruct child as [|sub| |]; try discriminate Rc.
    + eexists. split; [reflexivity|]. intros f. rewrite in_app_iff, Hm. split.
      * intros [I | (path & F & P & ->)].
        -- destruct (is_post item) eqn:P; [|destruct I]. destruct I as [<- | []].
           exists [item]. repeat split; [constructor; now left | exact P].
        -- exists path. repeat split; [|exact P].
           inversion F; subst; [apply file_here | eapply file_below]; try (right; eassumption);
             eassumption.
      * intros (path & F & P & ->).
        inversion F as [? i I|? d sub' path' I F']; subst.
        -- destruct I as [[= <-] | I].
           ++ left. cbn [last] in P. rewrite P. now left.
           ++ right. exists [i]. repeat split; [now apply file_here | exact P].
        -- destruct I as [E | I]; [discriminate E|].
           right. exists (d :: path'). repeat split; [|exact P].
           now apply file_below with sub'.
    + destruct (IH sub (path_join dir item) Dc Rc) as (found & Ef & Hf).
      rewrite Ef. eexists. split; [reflexivity|]. intros f. rewrite in_app_iff, Hf, Hm. split.
      * intros [(path & F & P & ->) | (path & F & P & ->)].
        -- exists (item :: path). repeat split.
           ++ apply file_below with sub; [now left | exact F].
           ++ destruct path; [inversion F | exact P].
        -- exists path. repeat split; [|exact P].
           inversion F; subst; [apply file_here | eapply file_below]; try (right; eassumption);
             eassumption.
      * intros (path & F & P & ->).
        inversion F as [? i I|? d sub' path' I F']; subst.
        -- destruct I as [E | I]; [discriminate E|].
           right. exists [i]. repeat split; [now apply file_here | exact P].
        -- destruct I as [[= <- <-] | I].
           ++ left. exists path'. repeat split; [exact F'|].
              destruct path'; [inversion F' | exact P].
           ++ right. exists (d :: path'). repeat split; [|exact P].
              now apply file_below with sub'.
Qed.

(** A link that leads nowhere or a directory that cannot be read, anywhere
    below, makes the scan throw. *)
Lemma scan_unreadable n : forall items dir,
  (depth (Dir items) <= n)%nat ->
  readable (Dir items) = false ->
  exists e, scanDirectory dir (Dir items) = Thrown e.
Proof.
  induction n as [|n IH]; intros items dir Dn R; [cbn [depth] in Dn; lia|].
  rewrite scan_items. rewrite readable_items in R.
  induction items as [|[item child] rest IHr]; [discriminate R|].
  cbn [forallb snd] in R.
  assert (Dc : (depth child <= n)%nat).
  { pose proof (depth_child item child ((item, child) :: rest) (or_introl eq_refl)). lia. }
  assert (Dr : (depth (Dir rest) <= S n)%nat).
  { pose proof (depth_rest (item, child) rest). lia. }
  cbn [scanItems].
  destruct child as [|sub| |].
  - cbn [readable andb] in R. destruct (IHr Dr R) as [e ->]. now exists e.
  - destruct (readable (Dir sub)) eqn:Rs.
    + destruct (scan_readable n sub (path_join dir item) Dc Rs) as (found & -> & _).
      cbn [andb] in R. destruct (IHr Dr R) as [e ->]. now exists e.
    + destruct (IH sub (path_join dir item) Dc Rs) as [e ->]. now exists e.
  - eexists. reflexivity.
  - eexists. reflexivity.
Qed.

(** X14.  When public/posts is a directory in which every entry can be
    looked at and every directory read, [findAllPosts] returns exactly the
    paths of the entries below it, at any depth, that are no directories and
    whose name ends in .html but not in .backup.html: a backup file is never
    among them, and a directory is entered whatever its name.  When a link
    that leads nowhere or a directory that cannot be read stands anywhere
    below, [findAllPosts] throws and returns no path at all. *)
Theorem findAllPosts_finds_the_posts p items :
  (readable (Dir items) = true ->
   exists found,
     findAllPosts p (Some (Dir items)) = Returned found
     /\ forall f,
          In f found <->
          exists path,
            file_at items path /\ is_post (last path "") = true
            /\ f = under (path_join (path_join (dirname p) "public") "posts") path)
  /\ (readable (Dir items) = false ->
      exists e, findAllPosts p (Some (Dir items)) = Thrown e).
Proof.
  split; intros R.
  - exact (scan_readable _ items _ (le_n _) R).
  - exact (scan_unreadable _ items _ (le_n _) R).
Qed.

End Scanner.

(** ** Further instances on the example worlds *)

Lemma configure_tests_the_answers_witness :
  stdin (snd (configureDeployment
                (Example.world ["--config"] [] ["203.0.113.7"; ""; "2222"; ""; ""; ""] 2)))
  = [].
Proof.
  destruct (configure_tests_the_answers
              (Example.world ["--config"] [] ["203.0.113.7"; ""; "2222"; ""; ""; ""] 2)
              (Example.config 2) "203.0.113.7" "" "2222" "" "" "" []
              (Host.ok ("Connection successful" ++ LF)) (Example.host [])
              eq_refl eq_refl eq_refl) as (_ & _ & I).
  exact I.
Defined.

(** The confirmation of a real deploy finds the input at its end: the
    process ends with exit code 0 and only the connection test was spawned. *)
Lemma unanswered_confirmation_exits_zero :
  ending (fst (main (Example.world [] [] [] 2))) = Code 0
  /\ List.length (history (snd (main (Example.world [] [] [] 2)))) = 1%nat.
Proof. split; vm_compute; reflexivity. Qed.

(** Six lines that arrive in one batch answer the first question of the
    interactive setup only: five questions stay unanswered. *)
Lemma lines_behind_an_answer_are_dropped :
  heard [["203.0.113.7"; "root"; "22"; "~/.ssh/id_rsa"; "/srv/site"; "/srv/backups"]]
  = ["203.0.113.7"]
  /\ fst (main (Example.world ["--config"] []
                 (heard [["203.0.113.7"; "root"; "22"; "~/.ssh/id_rsa"; "/srv/site";
                          "/srv/backups"]]) 2))
     = Stalled.
Proof. split; vm_compute; reflexivity. Qed.

(** With an empty exclude pattern the flag is left without its pattern,
    rsync takes the remote shell for a source and exits with status 23. *)
Lemma empty_pattern_fails_the_sync :
  fst (deployFiles Example.careless false (Example.world [] [] [] 2))
  = Thrown {| message := "Command failed with code 23" ++ LF |}.
Proof. vm_compute. reflexivity. Qed.

(** The posts of the small tree, and the scan that meets a link which
    leads nowhere. *)
Lemma posts_of_the_sample :
  Posts.findAllPosts (Example.proc []) (Some (Posts.Dir Posts.sample))
  = Returned ["/home/me/blog/public/posts/index.html";
              "/home/me/blog/public/posts/2024/vacunas.html"]
  /\ Posts.findAllPosts (Example.proc []) (Some (Posts.Dir Posts.broken))
     = Thrown (Posts.ENOENT "/home/me/blog/public/posts/2024/old.html").
Proof. split; vm_compute; reflexivity. Qed.

Lemma testConnection_reports_witness :
  fst (testConnection (Example.config 2) (Example.world [] [true] [] 2)) = Returned false.
Proof.
  exact (proj1 (testConnection_reports (Example.config 2) (Example.world [] [true] [] 2)
                  (Host.failed 255 "ssh: connect to host: Connection timed out")
                  (Example.host []) eq_refl)).
Defined.

Lemma createBackup_stops_at_failure_witness :
  history (snd (createBackup (Example.config 2) (Example.world [] [true] [] 2)))
  = [entry (ssh (Example.proc []) (Example.config 2) (sh_mkdir (Example.config 2)) Pipe)
           (Host.failed 255 "ssh: connect to host: Connection timed out")].
Proof.
  destruct (createBackup_stops_at_failure (Example.config 2) (Example.world [] [true] [] 2)
              (Host.failed 255 "ssh: connect to host: Connection timed out")
              (Example.host [])
              (Host.ok "")
              (Host.with_backups
                 (("backup-2024-01-01T00-00-00-000Z", "v3") :: Host.backups (Example.host []))
                 (Example.host []))
              eq_refl eq_refl) as [A _].
  destruct (A eq_refl) as (e & _ & _ & H & _). exact H.
Defined.

Lemma cleanup_removes_in_order_witness :
  exists h,
    history (snd (cleanOldBackups (Example.config 2) (Example.world [] [false; true] [] 2)))
    = entry (ssh (Example.proc []) (Example.config 2) (sh_list (Example.config 2)) Pipe)
            (Host.ok (Host.listing ["backup-c"; "backup-b"; "backup-a"])) :: h
    /\ (all_succeeded h -> List.length h = 1%nat).
Proof.
  destruct (cleanup_removes_in_order (Example.config 2)
              (Example.world [] [false; true] [] 2)
              (Host.ok (Host.listing ["backup-c"; "backup-b"; "backup-a"]))
              (Example.host [true]) eq_refl) as (h & H & _ & R).
  exists h. split; [exact H|].
  destruct (R _ _ eq_refl) as (_ & _ & L). exact L.
Defined.


Lemma unreadable_config_is_fatal_witness :
  fst (main (Build_World Host.transport (Example.proc ["--rollback"]) (Example.host [])
               [] [] [] (Malformed "Unexpected end of JSON input")
               ["/home/me/blog/public"] "2024-01-01T00:00:00.000Z"))
  = Thrown {| message := "Unexpected end of JSON input" |}.
Proof.
  destruct (unreadable_config_is_fatal
              (Build_World Host.transport (Example.proc ["--rollback"]) (Example.host [])
                 [] [] [] (Malformed "Unexpected end of JSON input")
                 ["/home/me/blog/public"] "2024-01-01T00:00:00.000Z")
              "Unexpected end of JSON input" eq_refl) as [_ A].
  exact (proj1 (A eq_refl)).
Defined.

Lemma backup_names_tell_instants_apart_witness :
  Host.plain_name (backupNameAt "2024-01-01T00:00:00.000Z") = true.
Proof.
  exact (proj2 (backup_names_tell_instants_apart
                  "2024-01-01T00:00:00.000Z" "2024-01-01T00:00:00.001Z" eq_refl eq_refl)).
Defined.

Lemma negative_limit_drops_oldest_witness :
  Host.backups (remote (snd (cleanOldBackups (Example.config (-1))
                               (Example.world [] [] [] (-1)))))
  = [("backup-c", "v2"); ("backup-b", "v1")].
Proof.
  destruct (negative_limit_drops_oldest (Example.config (-1)) (Example.world [] [] [] (-1))
              0%nat (conj eq_refl eq_refl) eq_refl (tidy_example []) eq_refl)
    as (_ & B & _).
  exact B.
Defined.

